(** * historical_timelines.renderer: the HistoricalTimelineRenderer class

    A shallow embedding of [src/historical_timelines/renderer.py].  The
    renderer is glue code over the bokeh plotting library: its methods read
    the renderer's configuration, build a figure object and mutate it.  The
    embedding keeps that shape: methods are computations in a small
    state-and-exception monad over a [World] that holds the renderer object,
    the store of figure objects and the log of display/save effects. *)

From Stdlib Require Import ZArith QArith Lia SpecFloat.
From stdpp Require Import base option list strings pretty gmap.

(** ** Python values *)

(** The cells of the columns handed to the renderer: strings (labels,
    titles, descriptions) and integers (years).  Python's [==] between two
    such cells is structural equality. *)
Inductive pyval :=
  | PStr (s : string)
  | PInt (z : Z).

#[global] Instance pyval_eq_dec : EqDecision pyval.
Proof. solve_decision. Defined.

#[global] Instance pyval_countable : Countable pyval.
Proof.
  refine (inj_countable'
    (λ v, match v with PStr s => inl s | PInt z => inr z end)
    (λ x, match x with inl s => PStr s | inr z => PInt z end) _).
  by intros [].
Defined.

(** A Python [dict] from column names to columns (lists of cells).  Both
    the event dictionary and every period group have this shape. *)
Abbreviation pydict := (gmap string (list pyval)).

(** [str(i)] for a non-negative integer: its decimal numeral. *)
Definition str (i : nat) : string := pretty i.

(** ** The timeline collaborator *)

(** Modelled from the spec: [HistoricalTimeline] lives in [timeline.py],
    which is not part of the sources at hand.  The spec describes it as a
    collaborator exposing a title string and two accessors, one producing
    the event mapping and one producing the list of period groups; the
    record holds what those accessors return. *)
Record HistoricalTimeline := {
  title : string;
  create_event_dict : pydict;
  create_period_list : list pydict;
}.

(** ** The bokeh objects the renderer builds *)

Inductive tool :=
  | BoxZoomTool
  | ResetTool
  | PanTool (dimensions : string).

Record ColumnDataSource := { data : pydict }.

(** An argument of a glyph that bokeh resolves against the data source: a
    bare Python string names a column of the source, [value(v)] stands for
    the constant [v]. *)
Inductive dataspec :=
  | column (name : string)
  | value (v : pyval).

(** What [plot.scatter] and [plot.hbar] receive, keyword by keyword. *)
Record Scatter := {
  sc_x : dataspec;
  sc_y : dataspec;
  sc_size : Z;
  sc_source : ColumnDataSource;
  sc_color : string;
}.

Record HBar := {
  hb_right : dataspec;
  hb_left : dataspec;
  hb_y : dataspec;
  hb_height : Q;
  hb_color : string;
  hb_source : ColumnDataSource;
}.

Inductive glyph :=
  | scatter (g : Scatter)
  | hbar (g : HBar).

Record LabelSet := {
  ls_x : dataspec;
  ls_y : dataspec;
  ls_text : string;
  ls_y_offset : Z;
  ls_text_font_size : string;
  ls_text_color : string;
  ls_text_align : string;
  ls_source : ColumnDataSource;
}.

(** The JavaScript fragment of the tick formatters,
    [return tick < 0 ? Math.abs(tick) + " BC" : tick + " AD"],
    as a syntax tree. *)
Inductive js_expr :=
  | JTick
  | JNum (x : spec_float)
  | JStr (s : string)
  | JAbs (e : js_expr)
  | JAdd (e1 e2 : js_expr)
  | JLt (e1 e2 : js_expr)
  | JCond (c e1 e2 : js_expr).

(** The [code] of a formatter: the empty program or one [return]. *)
Inductive js_code :=
  | js_empty
  | js_return (e : js_expr).

Inductive TickFormatter :=
  | CustomJSTickFormatter (code : js_code).

(** JavaScript's numbers are the IEEE 754 doubles; [spec_float] is the
    Standard Library's datatype of them (zeros, infinities, NaN and
    sign, mantissa, exponent), with its comparison [SFltb] and absolute
    value [SFabs]. *)
Inductive js_value :=
  | JSNumber (x : spec_float)
  | JSString (s : string)
  | JSBoolean (b : bool).

(** What a number turns into when it is concatenated with a string
    (Number::toString).  This is the JavaScript engine's, not the
    renderer's: it is a parameter of the model, and what is proved holds
    for every such function. *)
Class NumberToString := number_to_string : spec_float → string.

Definition js_to_string `{!NumberToString} (v : js_value) : string :=
  match v with
  | JSNumber x => number_to_string x
  | JSString s => s
  | JSBoolean b => if b then "true" else "false"
  end.

(** Running the fragment on a tick.  Of JavaScript's coercions only the
    one the formatters rely on is modelled: [+] with a string operand turns
    the other operand into a string. *)
Fixpoint js_eval `{!NumberToString} (e : js_expr) (tick : spec_float)
  : option js_value :=
  match e with
  | JTick => Some (JSNumber tick)
  | JNum x => Some (JSNumber x)
  | JStr s => Some (JSString s)
  | JAbs e =>
      match js_eval e tick with
      | Some (JSNumber x) => Some (JSNumber (SFabs x))
      | _ => None
      end
  | JAdd e1 e2 =>
      match js_eval e1 tick, js_eval e2 tick with
      | Some (JSNumber a), Some (JSNumber b) =>
          Some (JSNumber (SFadd 53 1024 a b))
      | Some (JSString a), Some v => Some (JSString (a +:+ js_to_string v))
      | Some v, Some (JSString b) => Some (JSString (js_to_string v +:+ b))
      | _, _ => None
      end
  | JLt e1 e2 =>
      match js_eval e1 tick, js_eval e2 tick with
      | Some (JSNumber a), Some (JSNumber b) => Some (JSBoolean (SFltb a b))
      | _, _ => None
      end
  | JCond c e1 e2 =>
      match js_eval c tick with
      | Some (JSBoolean true) => js_eval e1 tick
      | Some (JSBoolean false) => js_eval e2 tick
      | _ => None
      end
  end.

(** The label a formatter puts on a tick: what its code returns. *)
Definition tick_label `{!NumberToString} (f : TickFormatter)
    (tick : spec_float) : option string :=
  match f with
  | CustomJSTickFormatter js_empty => None
  | CustomJSTickFormatter (js_return e) => js_to_string <$> js_eval e tick
  end.

(** The keyword arguments [render_timeline] hands to [figure]. *)
Record figure_kwargs := {
  kw_title : string;
  kw_x_axis_label : string;
  kw_y_axis_label : string;
  kw_height : Z;
  kw_width : Z;
  kw_y_range : list pyval;
  kw_background_fill_color : string;
  kw_border_fill_color : string;
  kw_background_fill_alpha : Q;
  kw_border_fill_alpha : Q;
  kw_tools : list tool;
}.

(** A hover tool of a figure, as far as the renderer touches it. *)
Record HoverTool := { tooltips : list (string * string) }.

(** A bokeh figure, as far as the renderer touches it: the keyword
    arguments it was created with, [toolbar.logo], the glyphs drawn and the
    layouts added so far, [xaxis.formatter], and [hover]: the hover tools
    among the figure's tools, which is what [plot.hover] selects.  A figure
    need not have any. *)
Record figure := {
  fig_kwargs : figure_kwargs;
  toolbar_logo : option string;
  renderers : list glyph;
  layouts : list LabelSet;
  hover : list HoverTool;
  xaxis_formatter : option TickFormatter;
}.

(** ** The renderer object and the world *)

Record HistoricalTimelineRenderer := {
  tl : HistoricalTimeline;
  bg_color : string;
  bg_alpha : Q;
  period_color : string;
  event_color : string;
  tools : list tool;
}.

(** The effects of bokeh's [show] and [save]; each records the figure as it
    is when the call is made. *)
Inductive effect :=
  | Shown (p : figure) (title : string)
  | Saved (p : figure) (filename : string) (title : string).

(** Figures are mutable objects: a figure variable of the source is a
    reference into [figures]. *)
Record World := {
  self : HistoricalTimelineRenderer;
  figures : list figure;
  effects : list effect;
}.

Definition set_figures (fs : list figure) (w : World) : World :=
  {| self := self w; figures := fs; effects := effects w |}.

Definition set_effects (es : list effect) (w : World) : World :=
  {| self := self w; figures := figures w; effects := es |}.

(** ** The monad of methods *)

(** [KeyError] and [IndexError] are Python's.  [InvalidReference] belongs
    to the store: it is what using a reference to no figure gives.  The
    renderer's own methods only use references that [setup_figure] handed
    out or that the caller passed in. *)
Inductive exception :=
  | KeyError (key : string)
  | IndexError
  | InvalidReference.

Inductive outcome (A : Type) :=
  | Return (a : A) (w : World)
  | Raise (e : exception).
Arguments Return {A} a w.
Arguments Raise {A} e.

Definition M (A : Type) : Type := World → outcome A.

Definition ret {A} (a : A) : M A := λ w, Return a w.

Definition bind {A B} (m : M A) (k : A → M B) : M B :=
  λ w, match m w with
       | Return a w' => k a w'
       | Raise e => Raise e
       end.

Definition raise {A} (e : exception) : M A := λ _, Raise e.

Declare Scope py_scope.
Delimit Scope py_scope with py.
Notation "x <- m ;; k" := (bind m (λ x, k))
  (at level 100, m at next level, right associativity) : py_scope.
Notation "m ;; k" := (bind m (λ _, k))
  (at level 100, right associativity) : py_scope.
Open Scope py_scope.

Definition get_self : M HistoricalTimelineRenderer := λ w, Return (self w) w.

(** [d[key]] on a dict. *)
Definition getitem (d : pydict) (key : string) : M (list pyval) :=
  match d !! key with
  | Some v => ret v
  | None => raise (KeyError key)
  end.

(** [l[i]] on a list, for a non-negative index. *)
Definition list_getitem {A} (l : list A) (i : nat) : M A :=
  match l !! i with
  | Some a => ret a
  | None => raise IndexError
  end.

(** [for x in xs: body x]. *)
Fixpoint for_each {A} (xs : list A) (body : A → M unit) : M unit :=
  match xs with
  | [] => ret tt
  | x :: xs' => body x ;; for_each xs' body
  end.

(** [range(n)]. *)
Definition range (n : nat) : list nat := seq 0 n.

(** Reading and updating the figure object behind a reference. *)
Definition read_figure (plot : nat) : M figure :=
  λ w, match figures w !! plot with
       | Some fig => Return fig w
       | None => Raise InvalidReference
       end.

Definition update_figure (plot : nat) (f : figure → figure) : M unit :=
  λ w, match figures w !! plot with
       | Some fig => Return tt (set_figures (<[plot := f fig]> (figures w)) w)
       | None => Raise InvalidReference
       end.

Definition new_figure (fig : figure) : M nat :=
  λ w, Return (length (figures w)) (set_figures (figures w ++ [fig]) w).

Definition perform (e : effect) : M unit :=
  λ w, Return tt (set_effects (effects w ++ [e]) w).

(** ** bokeh's entry points, as the renderer calls them *)

(** [figure] called with keyword arguments: a fresh figure carrying them,
    with bokeh's default toolbar logo and nothing drawn yet.  None of the
    tools in [kw_tools] can be a hover tool, so the figure has none.  bokeh
    checks the keyword values and raises ValueError for one it does not
    accept (an alpha outside 0..1, say); that check is the library's and is
    not modelled: the model speaks of the calls bokeh accepts. *)
Definition bokeh_figure (kwargs : figure_kwargs) : M nat :=
  new_figure {| fig_kwargs := kwargs;
                toolbar_logo := Some "normal";
                renderers := [];
                layouts := [];
                hover := [];
                xaxis_formatter := None |}.

Definition set_toolbar_logo (logo : option string) (fig : figure) : figure :=
  {| fig_kwargs := fig_kwargs fig; toolbar_logo := logo;
     renderers := renderers fig; layouts := layouts fig;
     hover := hover fig;
     xaxis_formatter := xaxis_formatter fig |}.

Definition add_renderer (g : glyph) (fig : figure) : figure :=
  {| fig_kwargs := fig_kwargs fig; toolbar_logo := toolbar_logo fig;
     renderers := renderers fig ++ [g]; layouts := layouts fig;
     hover := hover fig;
     xaxis_formatter := xaxis_formatter fig |}.

Definition add_layout (l : LabelSet) (fig : figure) : figure :=
  {| fig_kwargs := fig_kwargs fig; toolbar_logo := toolbar_logo fig;
     renderers := renderers fig; layouts := layouts fig ++ [l];
     hover := hover fig;
     xaxis_formatter := xaxis_formatter fig |}.

(** [plot.hover.tooltips = t]: an assignment to an attribute of [plot.hover]
    sets that attribute on every hover tool of the figure, and so does
    nothing on a figure without one. *)
Definition set_hover_tooltips (t : list (string * string)) (fig : figure)
  : figure :=
  {| fig_kwargs := fig_kwargs fig; toolbar_logo := toolbar_logo fig;
     renderers := renderers fig; layouts := layouts fig;
     hover := (λ _, {| tooltips := t |}) <$> hover fig;
     xaxis_formatter := xaxis_formatter fig |}.

Definition set_xaxis_formatter (f : TickFormatter) (fig : figure) : figure :=
  {| fig_kwargs := fig_kwargs fig; toolbar_logo := toolbar_logo fig;
     renderers := renderers fig; layouts := layouts fig;
     hover := hover fig;
     xaxis_formatter := Some f |}.

(** [show(p, title=...)] and [save(p, filename, title=...)]. *)
Definition show (p : nat) (title : string) : M unit :=
  fig <- read_figure p ;; perform (Shown fig title).

Definition save (p : nat) (filename : string) (title : string) : M unit :=
  fig <- read_figure p ;; perform (Saved fig filename title).

(** ** The methods of HistoricalTimelineRenderer *)

(** [__init__]; the keyword defaults are "white", 1, "red" and "blue". *)
Definition init (tl : HistoricalTimeline) (bg_color : string) (bg_alpha : Q)
    (period_color event_color : string) : HistoricalTimelineRenderer :=
  {| tl := tl;
     bg_color := bg_color;
     bg_alpha := bg_alpha;
     period_color := period_color;
     event_color := event_color;
     tools := [BoxZoomTool; ResetTool; PanTool "width"] |}.

Definition get_source_from_event_dict (event_dict : pydict)
  : M ColumnDataSource :=
  ret {| data := event_dict |}.

(** A wrapper around [figure] that drops the toolbar logo; the renderer
    calls it with keyword arguments only. *)
Definition setup_figure (kwargs : figure_kwargs) : M nat :=
  fig <- bokeh_figure kwargs ;;
  update_figure fig (set_toolbar_logo None) ;;
  ret fig.

Definition get_y_range (event_dict : pydict) (period_list : list pydict)
  : M (list pyval) :=
  let y_range := [] in
  let y_range :=
    foldl (λ y_range i, y_range ++ [PStr ("p" +:+ str i)])
          y_range (range (length period_list)) in
  labels <- getitem event_dict "label" ;;
  let y_range :=
    foldl (λ y_range label,
             if decide (label ∉ y_range) then y_range ++ [label]
             else y_range)
          y_range labels in
  ret y_range.

Definition render_events (plot : nat) (source : ColumnDataSource)
    (x y : string) (size : Z) : M unit :=
  self <- get_self ;;
  update_figure plot
    (add_renderer
       (scatter {| sc_x := column x;
                   sc_y := column y;
                   sc_size := size;
                   sc_source := source;
                   sc_color := event_color self |})).

Definition event_tooltips (plot : nat) (tooltip_names : list string)
  : M unit :=
  let tooltips := [] in
  let tooltips :=
    foldl (λ tooltips tool, tooltips ++ [(tool, "@" +:+ tool)])
          tooltips tooltip_names in
  update_figure plot (set_hover_tooltips tooltips).

(** Keyword defaults: [y_offset=0], [text_font_size="13px"],
    [text_color="#555555"], [text_align='center']. *)
Definition event_labels (plot : nat) (source : ColumnDataSource)
    (x y text : string) (y_offset : Z)
    (text_font_size text_color text_align : string) : M unit :=
  let labels :=
    {| ls_x := column x;
       ls_y := column y;
       ls_text := text;
       ls_y_offset := y_offset;
       ls_text_font_size := text_font_size;
       ls_text_color := text_color;
       ls_text_align := text_align;
       ls_source := source |} in
  update_figure plot (add_layout labels).

(** Keyword default: [height=0.3]. *)
Definition render_periods (plot : nat) (period_list : list pydict)
    (height : Q) : M unit :=
  for_each (range (length period_list)) (λ i,
    period_group <- list_getitem period_list i ;;
    source <- get_source_from_event_dict period_group ;;
    self <- get_self ;;
    update_figure plot
      (add_renderer
         (hbar {| hb_right := column "start";
                  hb_left := column "end";
                  hb_y := value (PStr ("p" +:+ str i));
                  hb_height := height;
                  hb_color := period_color self;
                  hb_source := source |}))).

(** Keyword defaults: [y_offset=-8], [text_font_size="11px"],
    [text_color="#555555"], [text_align='center']. *)
Definition period_labels (plot : nat) (period_list : list pydict)
    (text : string) (y_offset : Z)
    (text_font_size text_color text_align : string) : M unit :=
  for_each (range (length period_list)) (λ i,
    period_group <- list_getitem period_list i ;;
    source <- get_source_from_event_dict period_group ;;
    let labels :=
      {| ls_x := column "mid";
         ls_y := value (PStr ("p" +:+ str i));
         ls_text := text;
         ls_y_offset := y_offset;
         ls_text_font_size := text_font_size;
         ls_text_color := text_color;
         ls_text_align := text_align;
         ls_source := source |} in
    update_figure plot (add_layout labels)).

(** [return tick < 0 ? Math.abs(tick) + " BCE" : tick +  " CE"] *)
Definition code_BCE_CE : js_code :=
  js_return
    (JCond (JLt JTick (JNum (S754_zero false)))
           (JAdd (JAbs JTick) (JStr " BCE"))
           (JAdd JTick (JStr " CE"))).

(** [return tick < 0 ? Math.abs(tick) + " BC" : tick +  " AD"] *)
Definition code_BC_AD : js_code :=
  js_return
    (JCond (JLt JTick (JNum (S754_zero false)))
           (JAdd (JAbs JTick) (JStr " BC"))
           (JAdd JTick (JStr " AD"))).

Definition format_xaxis (plot : nat) (scientific : bool) : M nat :=
  let code := js_empty in
  let code := if scientific then code_BCE_CE else code_BC_AD in
  update_figure plot (set_xaxis_formatter (CustomJSTickFormatter code)) ;;
  ret plot.

Definition render_timeline : M nat :=
  self <- get_self ;;
  let event_dict := create_event_dict (tl self) in
  let period_list := create_period_list (tl self) in
  source <- get_source_from_event_dict event_dict ;;
  y_range <- get_y_range event_dict period_list ;;
  self <- get_self ;;
  p <- setup_figure
         {| kw_title := title (tl self);
            kw_x_axis_label := "year";
            kw_y_axis_label := "category";
            kw_height := 400;
            kw_width := 1600;
            kw_y_range := y_range;
            kw_background_fill_color := bg_color self;
            kw_border_fill_color := bg_color self;
            kw_background_fill_alpha := bg_alpha self;
            kw_border_fill_alpha := bg_alpha self;
            kw_tools := tools self |} ;;
  event_tooltips p ["title"; "description"] ;;
  render_events p source "dates" "label" 20 ;;
  render_periods p period_list 0.3 ;;
  period_labels p period_list "title" (-8) "11px" "#555555" "center" ;;
  event_labels p source "dates" "label" "title" 0 "13px" "#555555"
    "center" ;;
  format_xaxis p false ;;
  ret p.

Definition output_timeline (output : string) (show_timeline : bool)
  : M unit :=
  p <- render_timeline ;;
  self <- get_self ;;
  if show_timeline then show p (title (tl self))
  else save p output (title (tl self)).

(** ** Specification vocabulary *)

(** The synthetic row identifiers of [n] periods: "p0", "p1", ... *)
Definition synthetic_rows (n : nat) : list pyval :=
  (λ i, PStr ("p" +:+ str i)) <$> seq 0 n.

(** Following the spec's words: each distinct element once, in the order of
    first occurrence. *)
Fixpoint first_occurrences (l : list pyval) : list pyval :=
  match l with
  | [] => []
  | x :: l' => x :: filter (λ y, y ≠ x) (first_occurrences l')
  end.

(** Following the spec's words: the event labels that are not a synthetic
    row identifier, each once, in first-occurrence order. *)
Definition event_rows (n : nat) (labels : list pyval) : list pyval :=
  first_occurrences (filter (λ l, l ∉ synthetic_rows n) labels).

(** Following the spec's words: one synthetic row identifier per period
    followed by the event rows. *)
Definition y_range_spec (n : nat) (labels : list pyval) : list pyval :=
  synthetic_rows n ++ event_rows n labels.

(** The bar [render_periods] draws for the period group at index [i]. *)
Definition period_bar (self : HistoricalTimelineRenderer) (height : Q)
    (i : nat) (period_group : pydict) : glyph :=
  hbar {| hb_right := column "start";
          hb_left := column "end";
          hb_y := value (PStr ("p" +:+ str i));
          hb_height := height;
          hb_color := period_color self;
          hb_source := {| data := period_group |} |}.

(** The label set [period_labels] attaches for the period group at index
    [i]. *)
Definition period_label (text : string) (y_offset : Z)
    (text_font_size text_color text_align : string)
    (i : nat) (period_group : pydict) : LabelSet :=
  {| ls_x := column "mid";
     ls_y := value (PStr ("p" +:+ str i));
     ls_text := text;
     ls_y_offset := y_offset;
     ls_text_font_size := text_font_size;
     ls_text_color := text_color;
     ls_text_align := text_align;
     ls_source := {| data := period_group |} |}.

Definition add_renderers (gs : list glyph) (fig : figure) : figure :=
  {| fig_kwargs := fig_kwargs fig; toolbar_logo := toolbar_logo fig;
     renderers := renderers fig ++ gs; layouts := layouts fig;
     hover := hover fig;
     xaxis_formatter := xaxis_formatter fig |}.

Definition add_layouts (ls : list LabelSet) (fig : figure) : figure :=
  {| fig_kwargs := fig_kwargs fig; toolbar_logo := toolbar_logo fig;
     renderers := renderers fig; layouts := layouts fig ++ ls;
     hover := hover fig;
     xaxis_formatter := xaxis_formatter fig |}.

(** A loop over the period groups that updates one figure per round: the
    figure after the rounds for [rest], which start at index [k]. *)
Fixpoint rounds (step : nat → pydict → figure → figure) (k : nat)
    (rest : list pydict) (fig : figure) : figure :=
  match rest with
  | [] => fig
  | period_group :: rest' => rounds step (S k) rest' (step k period_group fig)
  end.


(** The figure [render_timeline] builds for a renderer whose timeline has
    the event labels [labels]. *)
Definition rendered_figure (self : HistoricalTimelineRenderer)
    (labels : list pyval) : figure :=
  let event_dict := create_event_dict (tl self) in
  let period_list := create_period_list (tl self) in
  let source := {| data := event_dict |} in
  {| fig_kwargs :=
       {| kw_title := title (tl self);
          kw_x_axis_label := "year";
          kw_y_axis_label := "category";
          kw_height := 400;
          kw_width := 1600;
          kw_y_range := y_range_spec (length period_list) labels;
          kw_background_fill_color := bg_color self;
          kw_border_fill_color := bg_color self;
          kw_background_fill_alpha := bg_alpha self;
          kw_border_fill_alpha := bg_alpha self;
          kw_tools := tools self |};
     toolbar_logo := None;
     renderers :=
       scatter {| sc_x := column "dates";
                  sc_y := column "label";
                  sc_size := 20;
                  sc_source := source;
                  sc_color := event_color self |}
       :: imap (period_bar self 0.3) period_list;
     layouts :=
       imap (period_label "title" (-8) "11px" "#555555" "center") period_list
       ++ [ {| ls_x := column "dates";
               ls_y := column "label";
               ls_text := "title";
               ls_y_offset := 0;
               ls_text_font_size := "13px";
               ls_text_color := "#555555";
               ls_text_align := "center";
               ls_source := source |} ];
     hover := [];
     xaxis_formatter := Some (CustomJSTickFormatter code_BC_AD) |}.

(** The y-range a figure was created with. *)
Definition y_range (fig : figure) : list pyval := kw_y_range (fig_kwargs fig).

(** The figure an effect shows or saves. *)
Definition effect_figure (e : effect) : figure :=
  match e with
  | Shown p _ => p
  | Saved p _ _ => p
  end.

(** A call of one of the renderer's methods, with its arguments. *)
Inductive method_call :=
  | call_get_source_from_event_dict (event_dict : pydict)
  | call_setup_figure (kwargs : figure_kwargs)
  | call_get_y_range (event_dict : pydict) (period_list : list pydict)
  | call_render_events (plot : nat) (source : ColumnDataSource)
      (x y : string) (size : Z)
  | call_event_tooltips (plot : nat) (tooltip_names : list string)
  | call_event_labels (plot : nat) (source : ColumnDataSource)
      (x y text : string) (y_offset : Z)
      (text_font_size text_color text_align : string)
  | call_render_periods (plot : nat) (period_list : list pydict) (height : Q)
  | call_period_labels (plot : nat) (period_list : list pydict)
      (text : string) (y_offset : Z)
      (text_font_size text_color text_align : string)
  | call_format_xaxis (plot : nat) (scientific : bool)
  | call_render_timeline
  | call_output_timeline (output : string) (show_timeline : bool).

(** Making the call and dropping what it returns. *)
Definition call (c : method_call) : M unit :=
  match c with
  | call_get_source_from_event_dict event_dict =>
      get_source_from_event_dict event_dict ;; ret tt
  | call_setup_figure kwargs => setup_figure kwargs ;; ret tt
  | call_get_y_range event_dict period_list =>
      get_y_range event_dict period_list ;; ret tt
  | call_render_events plot source x y size =>
      render_events plot source x y size
  | call_event_tooltips plot tooltip_names =>
      event_tooltips plot tooltip_names
  | call_event_labels plot source x y text y_offset size color align =>
      event_labels plot source x y text y_offset size color align
  | call_render_periods plot period_list height =>
      render_periods plot period_list height
  | call_period_labels plot period_list text y_offset size color align =>
      period_labels plot period_list text y_offset size color align
  | call_format_xaxis plot scientific => format_xaxis plot scientific ;; ret tt
  | call_render_timeline => render_timeline ;; ret tt
  | call_output_timeline output show_timeline =>
      output_timeline output show_timeline
  end.

(** A computation that, when it returns, has left the renderer object as
    it found it. *)
Definition keeps_self {A} (m : M A) : Prop :=
  ∀ w a w', m w = Return a w' → self w' = self w.

(** ** Sample inputs *)

(** Four events in three categories, one of which is named like the first
    synthetic period row. *)
Definition sample_events : pydict :=
  {[ "dates" := [PInt (-44); PInt 476; PInt 1066; PInt 1453];
     "label" := [PStr "rome"; PStr "p0"; PStr "rome"; PStr "byzantium"];
     "title" := [PStr "Ides of March"; PStr "Fall of the West";
                 PStr "Hastings"; PStr "Fall of Constantinople"];
     "description" := [PStr "a"; PStr "b"; PStr "c"; PStr "d"] ]}.

Definition sample_period : pydict :=
  {[ "start" := [PInt (-27)];
     "end" := [PInt 476];
     "mid" := [PInt 224];
     "title" := [PStr "Roman Empire"] ]}.

Definition other_period : pydict :=
  {[ "start" := [PInt 330];
     "end" := [PInt 1453];
     "mid" := [PInt 891];
     "title" := [PStr "Byzantine Empire"] ]}.

Definition sample_timeline : HistoricalTimeline :=
  {| title := "Rome";
     create_event_dict := sample_events;
     create_period_list := [sample_period] |}.

(** The same events, no periods. *)
Definition events_only_timeline : HistoricalTimeline :=
  {| title := "Rome";
     create_event_dict := sample_events;
     create_period_list := [] |}.

Definition world_of (t : HistoricalTimeline) (figs : list figure) : World :=
  {| self := init t "white" 1 "red" "blue"; figures := figs; effects := [] |}.

(** A figure fresh from [setup_figure]. *)
Definition blank_figure : figure :=
  {| fig_kwargs :=
       {| kw_title := "Rome"; kw_x_axis_label := "year";
          kw_y_axis_label := "category"; kw_height := 400; kw_width := 1600;
          kw_y_range := []; kw_background_fill_color := "white";
          kw_border_fill_color := "white"; kw_background_fill_alpha := 1;
          kw_border_fill_alpha := 1;
          kw_tools := [BoxZoomTool; ResetTool; PanTool "width"] |};
     toolbar_logo := None;
     renderers := [];
     layouts := [];
     hover := [];
     xaxis_formatter := None |}.

(** The double nearest to an integer. *)
Definition number_of_Z (n : Z) : spec_float := binary_normalize 53 1024 n 0 false.

(** The integer a double stands for, if it is one. *)
Definition integer_of_number (x : spec_float) : option Z :=
  match x with
  | S754_zero _ => Some 0%Z
  | S754_finite s m e =>
      let sign := if s then Z.opp else id in
      if (0 <=? e)%Z then Some (sign (Z.pos m * 2 ^ e)%Z)
      else if (Z.pos m mod 2 ^ (- e) =? 0)%Z
           then Some (sign (Z.pos m / 2 ^ (- e))%Z)
           else None
  | _ => None
  end.

(** A printer to run the formatters with on sample ticks.  A double whose
    value is an integer of magnitude below 2^53 is printed as its decimal
    numeral, NaN and the infinities by name; this is what JavaScript
    prints.  For every other double JavaScript prints the shortest decimal
    that reads back as the same double; that algorithm is not modelled, and
    this printer puts "?" there.  It is used in examples only: the
    theorems are about every printer. *)
Definition sample_printer : NumberToString := λ x,
  match x with
  | S754_nan => "NaN"
  | S754_infinity s => if s then "-Infinity" else "Infinity"
  | _ =>
      match integer_of_number x with
      | Some n => if (Z.abs n <? 2 ^ 53)%Z then pretty n else "?"
      | None => "?"
      end
  end.

(** bokeh's tooltips of a hover tool that was given none. *)
Definition default_tooltips : list (string * string) :=
  [("index", "$index"); ("data (x, y)", "($x, $y)");
   ("screen (x, y)", "($sx, $sy)")].

(** A figure to which a hover tool has been added. *)
Definition hover_figure : figure :=
  {| fig_kwargs := fig_kwargs blank_figure;
     toolbar_logo := None;
     renderers := [];
     layouts := [];
     hover := [ {| tooltips := default_tooltips |} ];
     xaxis_formatter := None |}.

(** The world after [output_timeline] has shown the sample timeline. *)
Definition world_after_show : World :=
  let self := init sample_timeline "white" 1 "red" "blue" in
  let fig :=
    rendered_figure self
      [PStr "rome"; PStr "p0"; PStr "rome"; PStr "byzantium"] in
  {| self := self; figures := [fig]; effects := [Shown fig "Rome"] |}.

(** The figure a drawing method is asked to draw on, if the call is one of
    a drawing method. *)
Definition target (c : method_call) : option nat :=
  match c with
  | call_render_events plot _ _ _ _ => Some plot
  | call_event_tooltips plot _ => Some plot
  | call_event_labels plot _ _ _ _ _ _ _ _ => Some plot
  | call_render_periods plot _ _ => Some plot
  | call_period_labels plot _ _ _ _ _ _ => Some plot
  | call_format_xaxis plot _ => Some plot
  | _ => None
  end.

(** A computation that, when it returns, has changed no figure but the one
    behind [plot], created none and shown or saved nothing. *)
Definition touches_only {A} (plot : nat) (m : M A) : Prop :=
  ∀ w a w',
    m w = Return a w' →
    length (figures w') = length (figures w)
    ∧ (∀ q, q ≠ plot → figures w' !! q = figures w !! q)
    ∧ effects w' = effects w.

(** A timeline whose event dictionary lacks the 'label' column. *)
Definition unlabelled_timeline : HistoricalTimeline :=
  {| title := "Rome";
     create_event_dict := {[ "dates" := [PInt (-44)];
                             "title" := [PStr "Ides of March"] ]};
     create_period_list := [sample_period] |}.

(** * Facts about the specification vocabulary *)

Section first_occurrences.
Implicit Types (l : list pyval) (x : pyval).

Lemma filter_all {A} (P : A → Prop) `{!∀ a, Decision (P a)} (k : list A) :
  (∀ y, y ∈ k → P y) → filter P k = k.
Proof.
  induction k as [|a k IH]; intros Hall; [done|].
  rewrite filter_cons_True by (apply Hall; left).
  f_equal. apply IH. intros y Hy. apply Hall. by right.
Qed.

Lemma first_occurrences_filter (P : pyval → Prop) `{!∀ x, Decision (P x)} l :
  filter P (first_occurrences l) = first_occurrences (filter P l).
Proof.
  induction l as [|x l IH]; [done|].
  cbn [first_occurrences]. destruct (decide (P x)) as [HP|HP].
  - rewrite !filter_cons_True by done. cbn [first_occurrences].
    f_equal. rewrite <- IH, !list_filter_filter.
    apply list_filter_iff. tauto.
  - rewrite !filter_cons_False by done. rewrite <- IH, list_filter_filter.
    apply list_filter_iff. intros y. split; [tauto|].
    intros Hy. split; [done|]. by intros ->.
Qed.

Lemma elem_of_first_occurrences l x : x ∈ first_occurrences l ↔ x ∈ l.
Proof.
  induction l as [|y l IH]; [done|]. cbn [first_occurrences].
  rewrite !elem_of_cons, list_elem_of_filter, IH.
  destruct (decide (x = y)); tauto.
Qed.

Lemma NoDup_first_occurrences l : NoDup (first_occurrences l).
Proof.
  induction l as [|x l IH]; cbn [first_occurrences]; constructor.
  - rewrite list_elem_of_filter. tauto.
  - by apply NoDup_filter.
Qed.

(** A list without repetition is its own list of first occurrences. *)
Lemma first_occurrences_NoDup l : NoDup l → first_occurrences l = l.
Proof.
  induction 1 as [|x l Hx _ IH]; [done|]. cbn [first_occurrences].
  rewrite IH. f_equal. apply filter_all.
  intros y Hy ->. done.
Qed.

(** The first occurrences of a prefix come first: what a later part of
    the list contributes is only what the prefix did not have. *)
Lemma first_occurrences_app l1 l2 :
  first_occurrences (l1 ++ l2)
  = first_occurrences l1 ++ filter (λ y, y ∉ l1) (first_occurrences l2).
Proof.
  induction l1 as [|x l1 IH]; cbn [first_occurrences app].
  - symmetry. apply filter_all. intros y _. apply not_elem_of_nil.
  - f_equal. rewrite IH, filter_app. f_equal.
    rewrite list_filter_filter. apply list_filter_iff.
    intros y. rewrite not_elem_of_cons. tauto.
Qed.

(** Scanning from the left, an element is kept exactly when it has not
    been seen before. *)
Lemma first_occurrences_snoc l x :
  first_occurrences (l ++ [x])
  = if decide (x ∈ l) then first_occurrences l else first_occurrences l ++ [x].
Proof.
  rewrite first_occurrences_app. cbn [first_occurrences].
  rewrite filter_nil. destruct (decide (x ∈ l)) as [Hx|Hx].
  - rewrite filter_cons_False by tauto. by rewrite filter_nil, app_nil_r.
  - by rewrite filter_cons_True, filter_nil by done.
Qed.
End first_occurrences.

Section synthetic_rows.
Implicit Types (n i : nat).

Lemma length_synthetic_rows n : length (synthetic_rows n) = n.
Proof. unfold synthetic_rows. by rewrite length_fmap, length_seq. Qed.

Lemma lookup_synthetic_rows n i :
  i < n → synthetic_rows n !! i = Some (PStr ("p" +:+ str i)).
Proof.
  intros Hi. unfold synthetic_rows.
  rewrite list_lookup_fmap, (lookup_seq_lt 0 n i Hi). done.
Qed.

Lemma synthetic_row_inj i j :
  PStr ("p" +:+ str i) = PStr ("p" +:+ str j) → i = j.
Proof.
  intros [= H]. unfold str in H. by apply (inj pretty).
Qed.

Lemma NoDup_synthetic_rows n : NoDup (synthetic_rows n).
Proof.
  unfold synthetic_rows. apply NoDup_fmap_2_strong; [|apply NoDup_seq].
  intros i j _ _. apply synthetic_row_inj.
Qed.

Lemma elem_of_synthetic_rows n v :
  v ∈ synthetic_rows n ↔ ∃ i, i < n ∧ v = PStr ("p" +:+ str i).
Proof.
  unfold synthetic_rows. rewrite list_elem_of_fmap. split.
  - intros (i & -> & Hi). apply elem_of_seq in Hi. exists i. split; [lia|done].
  - intros (i & Hi & ->). exists i. split; [done|]. apply elem_of_seq. lia.
Qed.
End synthetic_rows.

Section y_range_loops.
Implicit Types (acc labels : list pyval) (n : nat).

(** The first loop of [get_y_range]. *)
Lemma foldl_append_rows acc (l : list nat) :
  foldl (λ y_range i, y_range ++ [PStr ("p" +:+ str i)]) acc l
  = acc ++ ((λ i, PStr ("p" +:+ str i)) <$> l).
Proof.
  revert acc. induction l as [|i l IH]; intros acc; cbn [foldl fmap list_fmap].
  - by rewrite app_nil_r.
  - by rewrite IH, <- app_assoc.
Qed.

(** The second loop of [get_y_range], from any list built so far. *)
Lemma foldl_append_new acc labels :
  foldl (λ y_range label,
           if decide (label ∉ y_range) then y_range ++ [label] else y_range)
        acc labels
  = acc ++ first_occurrences (filter (λ l, l ∉ acc) labels).
Proof.
  revert acc. induction labels as [|x labels IH]; intros acc; cbn [foldl].
  - by rewrite app_nil_r.
  - destruct (decide (x ∉ acc)) as [Hx|Hx].
    + rewrite IH, filter_cons_True by done. cbn [first_occurrences].
      rewrite <- app_assoc. cbn [app]. do 2 f_equal.
      rewrite first_occurrences_filter, list_filter_filter.
      f_equal. apply list_filter_iff. intros y.
      rewrite not_elem_of_app, list_elem_of_singleton. tauto.
    + by rewrite IH, filter_cons_False by done.
Qed.

Lemma NoDup_y_range_spec n labels : NoDup (y_range_spec n labels).
Proof.
  unfold y_range_spec, event_rows. apply NoDup_app. split_and!.
  - apply NoDup_synthetic_rows.
  - intros v Hv. rewrite elem_of_first_occurrences, list_elem_of_filter. tauto.
  - apply NoDup_first_occurrences.
Qed.

Lemma get_y_range_runs (event_dict : pydict) (period_list : list pydict)
    labels w :
  event_dict !! "label" = Some labels →
  get_y_range event_dict period_list w
  = Return (y_range_spec (length period_list) labels) w.
Proof.
  intros Hl. unfold get_y_range, getitem, bind. rewrite Hl. unfold ret.
  f_equal. unfold range.
  rewrite foldl_append_rows, foldl_append_new. done.
Qed.

Example get_y_range_sample :
  get_y_range sample_events [sample_period; other_period]
    (world_of sample_timeline [])
  = Return [PStr "p0"; PStr "p1"; PStr "rome"; PStr "byzantium"]
      (world_of sample_timeline []).
Proof. by vm_compute. Qed.

Lemma get_y_range_raises (event_dict : pydict) (period_list : list pydict) w :
  event_dict !! "label" = None →
  get_y_range event_dict period_list w = Raise (KeyError "label").
Proof.
  intros Hl. unfold get_y_range, getitem, bind. by rewrite Hl.
Qed.
End y_range_loops.

(** * Running the methods *)

Section figures.
Implicit Types (w : World) (plot : nat) (fig : figure).

Lemma set_figures_same w : set_figures (figures w) w = w.
Proof. by destruct w. Qed.

Lemma update_figure_runs plot f fig w :
  figures w !! plot = Some fig →
  update_figure plot f w
  = Return tt (set_figures (<[plot := f fig]> (figures w)) w).
Proof. intros H. unfold update_figure. by rewrite H. Qed.

Lemma lookup_updated plot fig fig' w :
  figures w !! plot = Some fig →
  figures (set_figures (<[plot := fig']> (figures w)) w) !! plot = Some fig'.
Proof.
  intros H. cbn. apply list_lookup_insert_eq. by apply lookup_lt_Some in H.
Qed.

Lemma update_updated plot fig' fig'' w :
  set_figures
    (<[plot := fig'']> (figures (set_figures (<[plot := fig']> (figures w)) w)))
    (set_figures (<[plot := fig']> (figures w)) w)
  = set_figures (<[plot := fig'']> (figures w)) w.
Proof. unfold set_figures. cbn. by rewrite list_insert_insert_eq. Qed.

Lemma for_each_rounds plot (period_list : list pydict) (body : nat → M unit)
    (step : HistoricalTimelineRenderer → nat → pydict → figure → figure) :
  (∀ i period_group fig w,
     period_list !! i = Some period_group →
     figures w !! plot = Some fig →
     body i w
     = Return tt
         (set_figures (<[plot := step (self w) i period_group fig]> (figures w))
                      w)) →
  ∀ rest pre fig w,
    period_list = pre ++ rest →
    figures w !! plot = Some fig →
    for_each (seq (length pre) (length rest)) body w
    = Return tt
        (set_figures
           (<[plot := rounds (step (self w)) (length pre) rest fig]> (figures w))
           w).
Proof.
  intros Hbody rest.
  induction rest as [|period_group rest IH]; intros pre fig w Hpl Hfig.
  - cbn. unfold ret. by rewrite list_insert_id, set_figures_same.
  - cbn [length seq for_each rounds]. unfold bind.
    rewrite (Hbody _ period_group fig) by (by subst; apply list_lookup_middle || done).
    specialize (IH (pre ++ [period_group])
                   (step (self w) (length pre) period_group fig)
                   (set_figures
                      (<[plot := step (self w) (length pre) period_group fig]>
                         (figures w)) w)).
    rewrite length_app in IH. cbn [length] in IH.
    replace (length pre + 1) with (S (length pre)) in IH by lia.
    rewrite IH.
    + by rewrite update_updated.
    + by rewrite <- app_assoc.
    + by eapply lookup_updated.
Qed.

Lemma rounds_add_renderer (bar : nat → pydict → glyph) rest k fig :
  rounds (λ i period_group, add_renderer (bar i period_group)) k rest fig
  = add_renderers (imap (λ j, bar (k + j)) rest) fig.
Proof.
  revert k fig. induction rest as [|pg rest IH]; intros k fig; cbn [rounds imap].
  - destruct fig. unfold add_renderers. cbn. by rewrite app_nil_r.
  - rewrite IH. unfold add_renderers, add_renderer. cbn.
    rewrite <- app_assoc. cbn. rewrite Nat.add_0_r. do 3 f_equal.
    apply imap_ext. intros j x _. cbn. f_equal. lia.
Qed.

Lemma rounds_add_layout (lab : nat → pydict → LabelSet) rest k fig :
  rounds (λ i period_group, add_layout (lab i period_group)) k rest fig
  = add_layouts (imap (λ j, lab (k + j)) rest) fig.
Proof.
  revert k fig. induction rest as [|pg rest IH]; intros k fig; cbn [rounds imap].
  - destruct fig. unfold add_layouts. cbn. by rewrite app_nil_r.
  - rewrite IH. unfold add_layouts, add_layout. cbn.
    rewrite <- app_assoc. cbn. rewrite Nat.add_0_r. do 3 f_equal.
    apply imap_ext. intros j x _. cbn. f_equal. lia.
Qed.
End figures.

Section methods.
Implicit Types (w : World) (plot : nat) (fig : figure).

Lemma bind_runs {A B} (m : M A) (k : A → M B) w a w' :
  m w = Return a w' → bind m k w = k a w'.
Proof. intros H. unfold bind. by rewrite H. Qed.

Lemma bind_raises {A B} (m : M A) (k : A → M B) w e :
  m w = Raise e → bind m k w = Raise e.
Proof. intros H. unfold bind. by rewrite H. Qed.

Lemma setup_figure_runs kwargs w :
  setup_figure kwargs w
  = Return (length (figures w))
      (set_figures
         (figures w
          ++ [ {| fig_kwargs := kwargs; toolbar_logo := None; renderers := [];
                  layouts := []; hover := [];
                  xaxis_formatter := None |} ]) w).
Proof.
  unfold setup_figure, bokeh_figure, new_figure, bind, update_figure. cbn.
  rewrite list_lookup_middle by done. unfold ret, set_figures. cbn.
  do 2 f_equal.
  rewrite <- (Nat.add_0_r (length (figures w))), insert_app_r. done.
Qed.

Lemma render_events_runs plot source x y size fig w :
  figures w !! plot = Some fig →
  render_events plot source x y size w
  = Return tt
      (set_figures
         (<[plot := add_renderer
                      (scatter {| sc_x := column x; sc_y := column y;
                                  sc_size := size; sc_source := source;
                                  sc_color := event_color (self w) |}) fig]>
            (figures w)) w).
Proof.
  intros H. unfold render_events, get_self, bind.
  by rewrite (update_figure_runs _ _ fig).
Qed.

Lemma foldl_append_tooltips (acc : list (string * string)) names :
  foldl (λ tooltips tool, tooltips ++ [(tool, "@" +:+ tool)]) acc names
  = acc ++ ((λ name, (name, "@" +:+ name)) <$> names).
Proof.
  revert acc. induction names as [|n names IH]; intros acc; cbn [foldl fmap list_fmap].
  - by rewrite app_nil_r.
  - by rewrite IH, <- app_assoc.
Qed.

Lemma event_tooltips_runs plot tooltip_names fig w :
  figures w !! plot = Some fig →
  event_tooltips plot tooltip_names w
  = Return tt
      (set_figures
         (<[plot := set_hover_tooltips
                      ((λ name, (name, "@" +:+ name)) <$> tooltip_names) fig]>
            (figures w)) w).
Proof.
  intros H. unfold event_tooltips.
  by rewrite foldl_append_tooltips, (update_figure_runs _ _ fig).
Qed.

Lemma event_labels_runs plot source x y text y_offset size color align fig w :
  figures w !! plot = Some fig →
  event_labels plot source x y text y_offset size color align w
  = Return tt
      (set_figures
         (<[plot := add_layout
                      {| ls_x := column x; ls_y := column y; ls_text := text;
                         ls_y_offset := y_offset; ls_text_font_size := size;
                         ls_text_color := color; ls_text_align := align;
                         ls_source := source |} fig]>
            (figures w)) w).
Proof.
  intros H. unfold event_labels. by rewrite (update_figure_runs _ _ fig).
Qed.

Lemma render_periods_runs plot (period_list : list pydict) height fig w :
  figures w !! plot = Some fig →
  render_periods plot period_list height w
  = Return tt
      (set_figures
         (<[plot := add_renderers
                      (imap (period_bar (self w) height) period_list) fig]>
            (figures w)) w).
Proof.
  intros H. unfold render_periods, range.
  change (seq 0 (length period_list))
    with (seq (length (@nil pydict)) (length period_list)).
  erewrite (for_each_rounds plot period_list _
              (λ self i pg, add_renderer (period_bar self height i pg)));
    [| |done|exact H].
  - by rewrite rounds_add_renderer.
  - intros i pg fig' w' Hi Hfig. unfold bind, list_getitem. rewrite Hi.
    cbn. by rewrite (update_figure_runs _ _ fig').
Qed.

Lemma period_labels_runs plot (period_list : list pydict) text y_offset size
    color align fig w :
  figures w !! plot = Some fig →
  period_labels plot period_list text y_offset size color align w
  = Return tt
      (set_figures
         (<[plot := add_layouts
                      (imap (period_label text y_offset size color align)
                            period_list) fig]>
            (figures w)) w).
Proof.
  intros H. unfold period_labels, range.
  change (seq 0 (length period_list))
    with (seq (length (@nil pydict)) (length period_list)).
  erewrite (for_each_rounds plot period_list _
              (λ _ i pg,
                 add_layout (period_label text y_offset size color align i pg)));
    [| |done|exact H].
  - by rewrite rounds_add_layout.
  - intros i pg fig' w' Hi Hfig. unfold bind, list_getitem. rewrite Hi.
    cbn. by rewrite (update_figure_runs _ _ fig').
Qed.

Lemma format_xaxis_runs plot scientific fig w :
  figures w !! plot = Some fig →
  format_xaxis plot scientific w
  = Return plot
      (set_figures
         (<[plot := set_xaxis_formatter
                      (CustomJSTickFormatter
                         (if scientific then code_BCE_CE else code_BC_AD))
                      fig]>
            (figures w)) w).
Proof.
  intros H. unfold format_xaxis, bind.
  by rewrite (update_figure_runs _ _ fig).
Qed.
End methods.

Section render.
Implicit Types (w : World) (labels : list pyval).

Lemma insert_last {A} (l : list A) (x y : A) :
  <[length l := y]> (l ++ [x]) = l ++ [y].
Proof.
  rewrite <- (Nat.add_0_r (length l)), insert_app_r. done.
Qed.

(** [render_timeline] succeeds whenever the event dictionary has a 'label'
    column: it allocates one figure and leaves everything else alone. *)
Lemma render_timeline_runs labels w :
  create_event_dict (tl (self w)) !! "label" = Some labels →
  render_timeline w
  = Return (length (figures w))
      (set_figures (figures w ++ [rendered_figure (self w) labels]) w).
Proof.
  intros Hl. unfold render_timeline.
  erewrite bind_runs by reflexivity.
  erewrite bind_runs by reflexivity.
  erewrite bind_runs by (by apply get_y_range_runs).
  erewrite bind_runs by reflexivity.
  erewrite bind_runs by apply setup_figure_runs.
  set (p := length (figures w)).
  match goal with
  | |- context [set_figures (figures w ++ [?f]) w] =>
      set (fig0 := f); set (w0 := set_figures (figures w ++ [fig0]) w)
  end.
  assert (H0 : figures w0 !! p = Some fig0) by (by apply list_lookup_middle).
  erewrite bind_runs by (by apply event_tooltips_runs).
  erewrite bind_runs
    by (eapply render_events_runs, lookup_updated, H0).
  rewrite update_updated.
  erewrite bind_runs
    by (eapply render_periods_runs, lookup_updated, H0).
  rewrite update_updated.
  erewrite bind_runs
    by (eapply period_labels_runs, lookup_updated, H0).
  rewrite update_updated.
  erewrite bind_runs
    by (eapply event_labels_runs, lookup_updated, H0).
  rewrite update_updated.
  erewrite bind_runs
    by (eapply format_xaxis_runs, lookup_updated, H0).
  rewrite update_updated.
  unfold ret, w0, set_figures. cbn [figures self effects].
  subst p. rewrite insert_last. reflexivity.
Qed.

Lemma render_timeline_raises w :
  create_event_dict (tl (self w)) !! "label" = None →
  render_timeline w = Raise (KeyError "label").
Proof.
  intros Hl. unfold render_timeline.
  erewrite bind_runs by reflexivity.
  erewrite bind_runs by reflexivity.
  by erewrite bind_raises by (by apply get_y_range_raises).
Qed.

Lemma output_timeline_runs labels output (show_timeline : bool) w :
  create_event_dict (tl (self w)) !! "label" = Some labels →
  output_timeline output show_timeline w
  = Return tt
      {| self := self w;
         figures := figures w ++ [rendered_figure (self w) labels];
         effects :=
           effects w
           ++ [ if show_timeline
                then Shown (rendered_figure (self w) labels)
                           (title (tl (self w)))
                else Saved (rendered_figure (self w) labels) output
                           (title (tl (self w))) ] |}.
Proof.
  intros Hl. unfold output_timeline.
  erewrite bind_runs by (by apply render_timeline_runs).
  erewrite bind_runs by reflexivity.
  destruct show_timeline; unfold show, save, read_figure, perform, bind;
    cbn [figures set_figures self effects];
    rewrite list_lookup_middle by done; reflexivity.
Qed.

Lemma output_timeline_raises output (show_timeline : bool) w :
  create_event_dict (tl (self w)) !! "label" = None →
  output_timeline output show_timeline w = Raise (KeyError "label").
Proof.
  intros Hl. unfold output_timeline.
  by erewrite bind_raises by (by apply render_timeline_raises).
Qed.
End render.

(** * The y-range *)

Section y_range_claims.
Implicit Types (w : World) (labels : list pyval).

(** C1.  For an event dictionary with a 'label' column, [get_y_range]
    returns the synthetic row identifiers "p0", "p1", ... of the periods,
    one per period in index order, followed by the event labels that are
    not already in the list, each once and in first-occurrence order; the
    result has no duplicates. *)
Theorem get_y_range_rows (event_dict : pydict) (period_list : list pydict)
    labels w :
  event_dict !! "label" = Some labels →
  ∃ rows,
    get_y_range event_dict period_list w
    = Return (synthetic_rows (length period_list) ++ rows) w
    ∧ length (synthetic_rows (length period_list)) = length period_list
    ∧ (∀ i, i < length period_list →
         synthetic_rows (length period_list) !! i
         = Some (PStr ("p" +:+ str i)))
    ∧ rows
      = first_occurrences
          (filter (λ l, l ∉ synthetic_rows (length period_list)) labels)
    ∧ NoDup (synthetic_rows (length period_list) ++ rows).
Proof.
  intros Hl. eexists. split_and!.
  - by apply get_y_range_runs.
  - apply length_synthetic_rows.
  - intros i Hi. by apply lookup_synthetic_rows.
  - reflexivity.
  - apply NoDup_y_range_spec.
Qed.

Lemma get_y_range_rows_witness :
  ∃ rows,
    get_y_range sample_events [sample_period; other_period]
      (world_of sample_timeline [])
    = Return (synthetic_rows 2 ++ rows) (world_of sample_timeline [])
    ∧ length (synthetic_rows 2) = 2
    ∧ (∀ i, i < 2 → synthetic_rows 2 !! i = Some (PStr ("p" +:+ str i)))
    ∧ rows
      = first_occurrences
          (filter (λ l, l ∉ synthetic_rows 2)
                  [PStr "rome"; PStr "p0"; PStr "rome"; PStr "byzantium"])
    ∧ NoDup (synthetic_rows 2 ++ rows).
Proof.
  apply (get_y_range_rows sample_events [sample_period; other_period]
           [PStr "rome"; PStr "p0"; PStr "rome"; PStr "byzantium"]
           (world_of sample_timeline [])).
  reflexivity.
Defined.


End y_range_claims.

Section chart_y_range.
Implicit Types (w : World) (labels : list pyval).

Lemma y_range_spec_no_periods labels :
  y_range_spec 0 labels = first_occurrences labels.
Proof.
  unfold y_range_spec, event_rows. cbn [synthetic_rows seq fmap list_fmap app].
  f_equal. apply filter_all. intros y _. apply not_elem_of_nil.
Qed.

Lemma length_event_rows n labels :
  length (event_rows n labels)
  = size (list_to_set labels ∖ list_to_set (synthetic_rows n) : gset pyval).
Proof.
  unfold event_rows.
  rewrite <- (size_list_to_set (C := gset pyval))
    by apply NoDup_first_occurrences.
  f_equal. apply set_eq. intros v.
  rewrite elem_of_difference, !elem_of_list_to_set.
  rewrite elem_of_first_occurrences, list_elem_of_filter. tauto.
Qed.

(** C4.  The y-range of the rendered chart has as many entries as there
    are periods plus distinct event labels that are not a period's
    synthetic identifier; an event label that equals a synthetic identifier
    adds no row (the y-range has no duplicates). *)
Theorem render_timeline_y_range_length labels w :
  create_event_dict (tl (self w)) !! "label" = Some labels →
  create_period_list (tl (self w)) ≠ [] →
  labels ≠ [] →
  ∃ p w' fig,
    render_timeline w = Return p w'
    ∧ figures w' !! p = Some fig
    ∧ length (y_range fig)
      = length (create_period_list (tl (self w)))
        + size (list_to_set labels
                ∖ list_to_set
                    (synthetic_rows (length (create_period_list (tl (self w)))))
                : gset pyval)
    ∧ NoDup (y_range fig).
Proof.
  intros Hl _ _. do 3 eexists. split_and!.
  - by apply render_timeline_runs.
  - cbn [figures set_figures]. by apply list_lookup_middle.
  - unfold y_range, y_range_spec. cbn [rendered_figure fig_kwargs kw_y_range].
    unfold y_range_spec.
    by rewrite length_app, length_synthetic_rows, length_event_rows.
  - apply NoDup_y_range_spec.
Qed.

Lemma render_timeline_y_range_length_witness :
  ∃ p w' fig,
    render_timeline (world_of sample_timeline []) = Return p w'
    ∧ figures w' !! p = Some fig
    ∧ length (y_range fig)
      = 1 + size (list_to_set
                    [PStr "rome"; PStr "p0"; PStr "rome"; PStr "byzantium"]
                  ∖ list_to_set (synthetic_rows 1) : gset pyval)
    ∧ NoDup (y_range fig).
Proof.
  apply (render_timeline_y_range_length
           [PStr "rome"; PStr "p0"; PStr "rome"; PStr "byzantium"]
           (world_of sample_timeline [])).
  - reflexivity.
  - discriminate.
  - discriminate.
Defined.

(** C5, as the code has it.  With no periods the y-range of the rendered
    chart consists of the distinct event labels in first-occurrence order,
    with no synthetic rows; it is the 'label' column itself when that has
    no repeated label. *)
Theorem render_timeline_no_periods labels w :
  create_period_list (tl (self w)) = [] →
  create_event_dict (tl (self w)) !! "label" = Some labels →
  labels ≠ [] →
  ∃ p w' fig,
    render_timeline w = Return p w'
    ∧ figures w' !! p = Some fig
    ∧ y_range fig = first_occurrences labels
    ∧ (NoDup labels → y_range fig = labels).
Proof.
  intros Hp Hl _. do 3 eexists. split_and!.
  - by apply render_timeline_runs.
  - cbn [figures set_figures]. by apply list_lookup_middle.
  - unfold y_range. cbn [rendered_figure fig_kwargs kw_y_range].
    rewrite Hp. apply y_range_spec_no_periods.
  - intros Hnd. unfold y_range. cbn [rendered_figure fig_kwargs kw_y_range].
    rewrite Hp, y_range_spec_no_periods. by apply first_occurrences_NoDup.
Qed.

Lemma render_timeline_no_periods_witness :
  ∃ p w' fig,
    render_timeline (world_of events_only_timeline []) = Return p w'
    ∧ figures w' !! p = Some fig
    ∧ y_range fig
      = first_occurrences
          [PStr "rome"; PStr "p0"; PStr "rome"; PStr "byzantium"]
    ∧ (NoDup [PStr "rome"; PStr "p0"; PStr "rome"; PStr "byzantium"] →
       y_range fig = [PStr "rome"; PStr "p0"; PStr "rome"; PStr "byzantium"]).
Proof.
  apply (render_timeline_no_periods
           [PStr "rome"; PStr "p0"; PStr "rome"; PStr "byzantium"]
           (world_of events_only_timeline [])).
  - reflexivity.
  - reflexivity.
  - discriminate.
Defined.

(** C5 as stated fails: with no periods and the labels rome, p0, rome,
    byzantium the chart's y-range is rome, p0, byzantium, which is not the
    'label' column. *)
Lemma render_timeline_repeated_label :
  ∃ p w' fig,
    create_period_list events_only_timeline = []
    ∧ create_event_dict events_only_timeline !! "label"
      = Some [PStr "rome"; PStr "p0"; PStr "rome"; PStr "byzantium"]
    ∧ render_timeline (world_of events_only_timeline []) = Return p w'
    ∧ figures w' !! p = Some fig
    ∧ y_range fig = [PStr "rome"; PStr "p0"; PStr "byzantium"]
    ∧ y_range fig ≠ [PStr "rome"; PStr "p0"; PStr "rome"; PStr "byzantium"].
Proof.
  do 3 eexists. split_and!.
  - reflexivity.
  - reflexivity.
  - apply (render_timeline_runs
             [PStr "rome"; PStr "p0"; PStr "rome"; PStr "byzantium"]).
    reflexivity.
  - cbn [figures set_figures world_of]. reflexivity.
  - vm_compute. reflexivity.
  - vm_compute. discriminate.
Qed.
End chart_y_range.

(** * Drawing on a figure *)

Section drawing.
Implicit Types (w : World) (plot : nat) (fig : figure).

(** C2, as the code has it.  On an existing figure [render_periods] adds
    one horizontal bar per period, in index order: the bar of period [i]
    sits at the synthetic row "p"+str(i), spans between the period's 'start'
    and 'end' columns with its [right] bound to 'start' and its [left]
    bound to 'end', and has the renderer's period color and the given
    height. *)
Theorem render_periods_bars plot (period_list : list pydict) height fig w :
  figures w !! plot = Some fig →
  ∃ w' fig' bars,
    render_periods plot period_list height w = Return tt w'
    ∧ figures w' !! plot = Some fig'
    ∧ renderers fig' = renderers fig ++ bars
    ∧ length bars = length period_list
    ∧ ∀ i period_group,
        period_list !! i = Some period_group →
        bars !! i
        = Some (hbar {| hb_right := column "start";
                        hb_left := column "end";
                        hb_y := value (PStr ("p" +:+ str i));
                        hb_height := height;
                        hb_color := period_color (self w);
                        hb_source := {| data := period_group |} |}).
Proof.
  intros Hfig. do 3 eexists. split_and!.
  - by apply render_periods_runs.
  - by eapply lookup_updated.
  - reflexivity.
  - apply length_imap.
  - intros i pg Hi. by rewrite list_lookup_imap, Hi.
Qed.

Lemma render_periods_bars_witness :
  ∃ w' fig' bars,
    render_periods 0 [sample_period; other_period] 0.3
      (world_of sample_timeline [blank_figure])
    = Return tt w'
    ∧ figures w' !! 0 = Some fig'
    ∧ renderers fig' = renderers blank_figure ++ bars
    ∧ length bars = 2
    ∧ ∀ i period_group,
        [sample_period; other_period] !! i = Some period_group →
        bars !! i
        = Some (hbar {| hb_right := column "start";
                        hb_left := column "end";
                        hb_y := value (PStr ("p" +:+ str i));
                        hb_height := 0.3;
                        hb_color := "red";
                        hb_source := {| data := period_group |} |}).
Proof.
  apply (render_periods_bars 0 [sample_period; other_period] 0.3
           blank_figure (world_of sample_timeline [blank_figure])).
  reflexivity.
Defined.

(** C2 as stated fails: the one bar drawn for one period does not have
    its left edge bound to 'start' and its right edge bound to 'end'; the
    two are the other way round. *)
Lemma render_periods_edges_swapped :
  ∃ w' fig' g,
    render_periods 0 [sample_period] 0.3
      (world_of sample_timeline [blank_figure])
    = Return tt w'
    ∧ figures w' !! 0 = Some fig'
    ∧ renderers fig' = [hbar g]
    ∧ hb_left g = column "end"
    ∧ hb_right g = column "start"
    ∧ ¬ (hb_left g = column "start" ∧ hb_right g = column "end").
Proof.
  do 3 eexists. split_and!.
  - apply (render_periods_runs 0 [sample_period] 0.3 blank_figure).
    reflexivity.
  - reflexivity.
  - reflexivity.
  - reflexivity.
  - reflexivity.
  - cbn. intros [[=] _].
Qed.



Example event_tooltips_on_hover_figure :
  ∃ w',
    event_tooltips 0 ["title"; "description"]
      (world_of sample_timeline [hover_figure])
    = Return tt w'
    ∧ (hover <$> figures w' !! 0)
      = Some [ {| tooltips := [("title", "@title");
                               ("description", "@description")] |} ].
Proof. eexists. split; reflexivity. Qed.
End drawing.

(** * Tick labels *)

Section tick_labels.
Context {printer : NumberToString}.
Implicit Types (w : World) (plot : nat) (fig : figure) (t : spec_float).

Lemma tick_label_BC_AD t :
  tick_label (CustomJSTickFormatter code_BC_AD) t
  = Some (if SFltb t (S754_zero false)
          then number_to_string (SFabs t) +:+ " BC"
          else number_to_string t +:+ " AD").
Proof.
  unfold tick_label, code_BC_AD. cbn [js_eval].
  by destruct (SFltb t (S754_zero false)).
Qed.

Lemma tick_label_BCE_CE t :
  tick_label (CustomJSTickFormatter code_BCE_CE) t
  = Some (if SFltb t (S754_zero false)
          then number_to_string (SFabs t) +:+ " BCE"
          else number_to_string t +:+ " CE").
Proof.
  unfold tick_label, code_BCE_CE. cbn [js_eval].
  by destruct (SFltb t (S754_zero false)).
Qed.

(** The two wordings never agree on a tick. *)
Lemma tick_labels_differ t :
  tick_label (CustomJSTickFormatter code_BC_AD) t
  ≠ tick_label (CustomJSTickFormatter code_BCE_CE) t.
Proof.
  rewrite tick_label_BC_AD, tick_label_BCE_CE.
  destruct (SFltb t (S754_zero false)); intros [= H];
    by apply (inj (String.append _)) in H.
Qed.

(** A tick that is zero or more is not below zero. *)
Lemma SFleb_zero_not_SFltb t :
  SFleb (S754_zero false) t = true → SFltb t (S754_zero false) = false.
Proof. by destruct t as [[]|[]| |[] m e]. Qed.

(** C3.  The formatter [format_xaxis] installs on an existing figure
    labels every tick [t] below zero with [abs t], as the engine prints
    it, followed by " BC", and every tick that is zero or more with [t],
    as the engine prints it, followed by " AD"; with the scientific flag
    set the suffixes are " BCE" and " CE". *)
Theorem format_xaxis_tick_labels plot (scientific : bool) fig w :
  figures w !! plot = Some fig →
  ∃ w' fig' formatter,
    format_xaxis plot scientific w = Return plot w'
    ∧ figures w' !! plot = Some fig'
    ∧ xaxis_formatter fig' = Some formatter
    ∧ ∀ t,
        (SFltb t (S754_zero false) = true →
         tick_label formatter t
         = Some (number_to_string (SFabs t)
                 +:+ (if scientific then " BCE" else " BC")))
        ∧ (SFleb (S754_zero false) t = true →
           tick_label formatter t
           = Some (number_to_string t
                   +:+ (if scientific then " CE" else " AD"))).
Proof.
  intros Hfig. do 3 eexists. split_and!.
  - by apply format_xaxis_runs.
  - by eapply lookup_updated.
  - reflexivity.
  - intros t. cbn [set_xaxis_formatter xaxis_formatter].
    destruct scientific;
      rewrite ?tick_label_BC_AD, ?tick_label_BCE_CE;
      (split; intros Ht;
       [ by rewrite Ht
       | by rewrite (SFleb_zero_not_SFltb t Ht) ]).
Qed.
End tick_labels.

Lemma format_xaxis_tick_labels_witness :
  ∃ w' fig' formatter,
    format_xaxis 0 true (world_of sample_timeline [blank_figure])
    = Return 0 w'
    ∧ figures w' !! 0 = Some fig'
    ∧ xaxis_formatter fig' = Some formatter
    ∧ ∀ t,
        (SFltb t (S754_zero false) = true →
         @tick_label sample_printer formatter t
         = Some (sample_printer (SFabs t) +:+ " BCE"))
        ∧ (SFleb (S754_zero false) t = true →
           @tick_label sample_printer formatter t
           = Some (sample_printer t +:+ " CE")).
Proof.
  apply (@format_xaxis_tick_labels sample_printer 0 true blank_figure
           (world_of sample_timeline [blank_figure])).
  reflexivity.
Defined.

Example tick_label_ides_of_march :
  @tick_label sample_printer (CustomJSTickFormatter code_BC_AD)
    (number_of_Z (-44))
  = Some "44 BC"
  ∧ @tick_label sample_printer (CustomJSTickFormatter code_BCE_CE)
      (number_of_Z (-44))
    = Some "44 BCE"
  ∧ @tick_label sample_printer (CustomJSTickFormatter code_BC_AD)
      (number_of_Z 1066)
    = Some "1066 AD"
  ∧ @tick_label sample_printer (CustomJSTickFormatter code_BCE_CE)
      (number_of_Z 0)
    = Some "0 CE"
  ∧ @tick_label sample_printer (CustomJSTickFormatter code_BCE_CE)
      (S754_zero true)
    = Some "0 CE"
  ∧ @tick_label sample_printer (CustomJSTickFormatter code_BC_AD) S754_nan
    = Some "NaN AD".
Proof. by vm_compute. Qed.

(** * The end-to-end path *)

Section end_to_end.
Context {printer : NumberToString}.
Implicit Types (w : World) (labels : list pyval).

(** C7.  [output_timeline] renders the full chart (the event markers, the
    bars and labels of the periods, the event labels and the tick
    formatter, as [render_timeline] builds them) and then does exactly one
    thing with it: with [show_timeline] set it shows the chart and saves
    nothing, otherwise it saves the chart under the given file name and
    shows nothing; either way the timeline's title goes along. *)
Theorem output_timeline_one_effect labels output (show_timeline : bool) w :
  create_event_dict (tl (self w)) !! "label" = Some labels →
  ∃ p w1 fig w2,
    render_timeline w = Return p w1
    ∧ figures w1 !! p = Some fig
    ∧ fig = rendered_figure (self w) labels
    ∧ y_range fig
      = y_range_spec (length (create_period_list (tl (self w)))) labels
    ∧ renderers fig
      = scatter {| sc_x := column "dates"; sc_y := column "label";
                   sc_size := 20;
                   sc_source := {| data := create_event_dict (tl (self w)) |};
                   sc_color := event_color (self w) |}
        :: imap (period_bar (self w) 0.3) (create_period_list (tl (self w)))
    ∧ layouts fig
      = imap (period_label "title" (-8) "11px" "#555555" "center")
             (create_period_list (tl (self w)))
        ++ [ {| ls_x := column "dates"; ls_y := column "label";
                ls_text := "title"; ls_y_offset := 0;
                ls_text_font_size := "13px"; ls_text_color := "#555555";
                ls_text_align := "center";
                ls_source := {| data := create_event_dict (tl (self w)) |} |} ]
    ∧ xaxis_formatter fig = Some (CustomJSTickFormatter code_BC_AD)
    ∧ effects w1 = effects w
    ∧ output_timeline output show_timeline w = Return tt w2
    ∧ self w2 = self w1
    ∧ figures w2 = figures w1
    ∧ effects w2
      = effects w
        ++ [ if show_timeline then Shown fig (title (tl (self w)))
             else Saved fig output (title (tl (self w))) ].
Proof.
  intros Hl. do 4 eexists. split_and!.
  - by apply render_timeline_runs.
  - cbn [figures set_figures]. by apply list_lookup_middle.
  - reflexivity.
  - reflexivity.
  - reflexivity.
  - reflexivity.
  - reflexivity.
  - reflexivity.
  - by apply output_timeline_runs.
  - reflexivity.
  - reflexivity.
  - reflexivity.
Qed.

Lemma output_timeline_one_effect_witness :
  ∃ p w1 fig w2,
    render_timeline (world_of sample_timeline []) = Return p w1
    ∧ figures w1 !! p = Some fig
    ∧ fig
      = rendered_figure (self (world_of sample_timeline []))
          [PStr "rome"; PStr "p0"; PStr "rome"; PStr "byzantium"]
    ∧ y_range fig
      = y_range_spec 1 [PStr "rome"; PStr "p0"; PStr "rome"; PStr "byzantium"]
    ∧ renderers fig
      = scatter {| sc_x := column "dates"; sc_y := column "label";
                   sc_size := 20;
                   sc_source := {| data := sample_events |};
                   sc_color := "blue" |}
        :: imap (period_bar (self (world_of sample_timeline [])) 0.3)
                [sample_period]
    ∧ layouts fig
      = imap (period_label "title" (-8) "11px" "#555555" "center")
             [sample_period]
        ++ [ {| ls_x := column "dates"; ls_y := column "label";
                ls_text := "title"; ls_y_offset := 0;
                ls_text_font_size := "13px"; ls_text_color := "#555555";
                ls_text_align := "center";
                ls_source := {| data := sample_events |} |} ]
    ∧ xaxis_formatter fig = Some (CustomJSTickFormatter code_BC_AD)
    ∧ effects w1 = []
    ∧ output_timeline "rome.html" false (world_of sample_timeline [])
      = Return tt w2
    ∧ self w2 = self w1
    ∧ figures w2 = figures w1
    ∧ effects w2 = [] ++ [Saved fig "rome.html" "Rome"].
Proof.
  apply (output_timeline_one_effect
           [PStr "rome"; PStr "p0"; PStr "rome"; PStr "byzantium"]
           "rome.html" false (world_of sample_timeline [])).
  reflexivity.
Defined.

(** C9.  Whatever the timeline, the chart [render_timeline] builds carries
    the BC/AD formatter, never the BCE/CE one, and so does the chart
    [output_timeline] shows or saves. *)
Theorem render_timeline_uses_BC_AD labels w :
  create_event_dict (tl (self w)) !! "label" = Some labels →
  ∃ p w1 fig,
    render_timeline w = Return p w1
    ∧ figures w1 !! p = Some fig
    ∧ xaxis_formatter fig = Some (CustomJSTickFormatter code_BC_AD)
    ∧ xaxis_formatter fig ≠ Some (CustomJSTickFormatter code_BCE_CE)
    ∧ (∀ t : spec_float,
         (xaxis_formatter fig ≫= λ f, tick_label f t)
         = Some (if SFltb t (S754_zero false)
                 then number_to_string (SFabs t) +:+ " BC"
                 else number_to_string t +:+ " AD")
         ∧ (xaxis_formatter fig ≫= λ f, tick_label f t)
           ≠ tick_label (CustomJSTickFormatter code_BCE_CE) t)
    ∧ ∀ output (show_timeline : bool),
        ∃ w2 e,
          output_timeline output show_timeline w = Return tt w2
          ∧ effects w2 = effects w ++ [e]
          ∧ effect_figure e = fig.
Proof.
  intros Hl. do 3 eexists. split_and!.
  - by apply render_timeline_runs.
  - cbn [figures set_figures]. by apply list_lookup_middle.
  - reflexivity.
  - discriminate.
  - intros t. cbn [rendered_figure xaxis_formatter mbind option_bind].
    split; [apply tick_label_BC_AD | apply tick_labels_differ].
  - intros output show_timeline. do 2 eexists. split_and!.
    + by apply output_timeline_runs.
    + reflexivity.
    + by destruct show_timeline.
Qed.

End end_to_end.

Lemma render_timeline_uses_BC_AD_witness :
  ∃ p w1 fig,
    render_timeline (world_of sample_timeline []) = Return p w1
    ∧ figures w1 !! p = Some fig
    ∧ xaxis_formatter fig = Some (CustomJSTickFormatter code_BC_AD)
    ∧ xaxis_formatter fig ≠ Some (CustomJSTickFormatter code_BCE_CE)
    ∧ (∀ t : spec_float,
         (xaxis_formatter fig ≫= λ f, @tick_label sample_printer f t)
         = Some (if SFltb t (S754_zero false)
                 then sample_printer (SFabs t) +:+ " BC"
                 else sample_printer t +:+ " AD")
         ∧ (xaxis_formatter fig ≫= λ f, @tick_label sample_printer f t)
           ≠ @tick_label sample_printer (CustomJSTickFormatter code_BCE_CE) t)
    ∧ ∀ output (show_timeline : bool),
        ∃ w2 e,
          output_timeline output show_timeline (world_of sample_timeline [])
          = Return tt w2
          ∧ effects w2 = [] ++ [e]
          ∧ effect_figure e = fig.
Proof.
  apply (@render_timeline_uses_BC_AD sample_printer
           [PStr "rome"; PStr "p0"; PStr "rome"; PStr "byzantium"]
           (world_of sample_timeline [])).
  reflexivity.
Defined.


(** * The renderer's configuration *)

Section configuration.
Implicit Types (w : World).

Lemma keeps_self_ret {A} (a : A) : keeps_self (ret a).
Proof. intros w a' w' [= _ <-]. done. Qed.

Lemma keeps_self_raise {A} e : keeps_self (@raise A e).
Proof. intros w a w' [=]. Qed.

Lemma keeps_self_bind {A B} (m : M A) (k : A → M B) :
  keeps_self m → (∀ a, keeps_self (k a)) → keeps_self (bind m k).
Proof.
  intros Hm Hk w b w'. unfold bind.
  destruct (m w) as [a w1|e] eqn:Em; [|done].
  intros Ek. rewrite (Hk a w1 b w' Ek). by apply (Hm w a w1).
Qed.

Lemma keeps_self_get_self : keeps_self get_self.
Proof. intros w a w' [= _ <-]. done. Qed.

Lemma keeps_self_getitem d key : keeps_self (getitem d key).
Proof.
  unfold getitem. destruct (d !! key);
    [apply keeps_self_ret | apply keeps_self_raise].
Qed.

Lemma keeps_self_list_getitem {A} (l : list A) i :
  keeps_self (list_getitem l i).
Proof.
  unfold list_getitem. destruct (l !! i);
    [apply keeps_self_ret | apply keeps_self_raise].
Qed.

Lemma keeps_self_read_figure plot : keeps_self (read_figure plot).
Proof.
  intros w a w'. unfold read_figure.
  destruct (figures w !! plot); [|done]. by intros [= _ <-].
Qed.

Lemma keeps_self_update_figure plot f : keeps_self (update_figure plot f).
Proof.
  intros w a w'. unfold update_figure.
  destruct (figures w !! plot); [|done]. by intros [= _ <-].
Qed.

Lemma keeps_self_new_figure fig : keeps_self (new_figure fig).
Proof. intros w a w' [= _ <-]. done. Qed.

Lemma keeps_self_perform e : keeps_self (perform e).
Proof. intros w a w' [= _ <-]. done. Qed.

Lemma keeps_self_for_each {A} (xs : list A) (body : A → M unit) :
  (∀ x, keeps_self (body x)) → keeps_self (for_each xs body).
Proof.
  intros Hbody. induction xs as [|x xs IH]; cbn [for_each].
  - apply keeps_self_ret.
  - apply keeps_self_bind; [apply Hbody | intros _; apply IH].
Qed.
End configuration.

Create HintDb keeps_self discriminated.
#[local] Hint Resolve keeps_self_ret keeps_self_raise keeps_self_get_self
  keeps_self_getitem keeps_self_list_getitem keeps_self_read_figure
  keeps_self_update_figure keeps_self_new_figure keeps_self_perform
  : keeps_self.

Ltac keeps_self :=
  repeat first
    [ apply keeps_self_bind; [|intros ?; cbv beta zeta]
    | apply keeps_self_for_each; intros ?; cbv beta zeta
    | solve [auto with keeps_self]
    | match goal with |- keeps_self (if ?b then _ else _) => destruct b end ].

Section configuration_methods.

Lemma keeps_self_get_source_from_event_dict event_dict :
  keeps_self (get_source_from_event_dict event_dict).
Proof. unfold get_source_from_event_dict. keeps_self. Qed.

Lemma keeps_self_setup_figure kwargs : keeps_self (setup_figure kwargs).
Proof. unfold setup_figure, bokeh_figure. keeps_self. Qed.

Lemma keeps_self_get_y_range event_dict (period_list : list pydict) :
  keeps_self (get_y_range event_dict period_list).
Proof. unfold get_y_range. keeps_self. Qed.

Lemma keeps_self_render_events plot source x y size :
  keeps_self (render_events plot source x y size).
Proof. unfold render_events. keeps_self. Qed.

Lemma keeps_self_event_tooltips plot names :
  keeps_self (event_tooltips plot names).
Proof. unfold event_tooltips. keeps_self. Qed.

Lemma keeps_self_event_labels plot source x y text y_offset size color align :
  keeps_self (event_labels plot source x y text y_offset size color align).
Proof. unfold event_labels. keeps_self. Qed.

Lemma keeps_self_render_periods plot (period_list : list pydict) height :
  keeps_self (render_periods plot period_list height).
Proof. unfold render_periods, get_source_from_event_dict. keeps_self. Qed.

Lemma keeps_self_period_labels plot (period_list : list pydict) text y_offset
    size color align :
  keeps_self (period_labels plot period_list text y_offset size color align).
Proof. unfold period_labels, get_source_from_event_dict. keeps_self. Qed.

Lemma keeps_self_format_xaxis plot scientific :
  keeps_self (format_xaxis plot scientific).
Proof. unfold format_xaxis. keeps_self. Qed.

Lemma keeps_self_render_timeline : keeps_self render_timeline.
Proof.
  unfold render_timeline.
  repeat first
    [ apply keeps_self_get_self
    | apply keeps_self_ret
    | apply keeps_self_get_source_from_event_dict
    | apply keeps_self_get_y_range
    | apply keeps_self_setup_figure
    | apply keeps_self_event_tooltips
    | apply keeps_self_render_events
    | apply keeps_self_render_periods
    | apply keeps_self_period_labels
    | apply keeps_self_event_labels
    | apply keeps_self_format_xaxis
    | apply keeps_self_bind; [|intros ?; cbv beta zeta] ].
Qed.

Lemma keeps_self_output_timeline output (show_timeline : bool) :
  keeps_self (output_timeline output show_timeline).
Proof.
  unfold output_timeline, show, save.
  apply keeps_self_bind; [apply keeps_self_render_timeline|intros p].
  keeps_self.
Qed.

(** C8.  The constructor fills the six configuration fields from its
    arguments, and no method of the class changes any of them: whenever a
    method call returns, the renderer object is what it was. *)
Theorem configuration_unchanged (c : method_call) w a w' :
  call c w = Return a w' →
  self w' = self w
  ∧ tl (self w') = tl (self w)
  ∧ bg_color (self w') = bg_color (self w)
  ∧ bg_alpha (self w') = bg_alpha (self w)
  ∧ period_color (self w') = period_color (self w)
  ∧ event_color (self w') = event_color (self w)
  ∧ tools (self w') = tools (self w).
Proof.
  intros Hc.
  assert (Hself : self w' = self w); [|by rewrite Hself].
  revert w a w' Hc. change (keeps_self (call c)).
  destruct c; cbn [call];
    first [ apply keeps_self_bind; [|intros ?; apply keeps_self_ret] | idtac ].
  - apply keeps_self_get_source_from_event_dict.
  - apply keeps_self_setup_figure.
  - apply keeps_self_get_y_range.
  - apply keeps_self_render_events.
  - apply keeps_self_event_tooltips.
  - apply keeps_self_event_labels.
  - apply keeps_self_render_periods.
  - apply keeps_self_period_labels.
  - apply keeps_self_format_xaxis.
  - apply keeps_self_render_timeline.
  - apply keeps_self_output_timeline.
Qed.

Lemma configuration_unchanged_witness :
  self world_after_show = self (world_of sample_timeline [])
  ∧ tl (self world_after_show) = tl (self (world_of sample_timeline []))
  ∧ bg_color (self world_after_show)
    = bg_color (self (world_of sample_timeline []))
  ∧ bg_alpha (self world_after_show)
    = bg_alpha (self (world_of sample_timeline []))
  ∧ period_color (self world_after_show)
    = period_color (self (world_of sample_timeline []))
  ∧ event_color (self world_after_show)
    = event_color (self (world_of sample_timeline []))
  ∧ tools (self world_after_show) = tools (self (world_of sample_timeline [])).
Proof.
  apply (configuration_unchanged (call_output_timeline "rome.html" true)
           (world_of sample_timeline []) tt world_after_show).
  vm_compute. reflexivity.
Defined.

(** The constructor is where the fields get their values. *)
Lemma init_fields t bg alpha pc ec :
  tl (init t bg alpha pc ec) = t
  ∧ bg_color (init t bg alpha pc ec) = bg
  ∧ bg_alpha (init t bg alpha pc ec) = alpha
  ∧ period_color (init t bg alpha pc ec) = pc
  ∧ event_color (init t bg alpha pc ec) = ec
  ∧ tools (init t bg alpha pc ec) = [BoxZoomTool; ResetTool; PanTool "width"].
Proof. done. Qed.
End configuration_methods.


(** * More about the y-range *)

Section y_range_more.
Implicit Types (w : World) (labels : list pyval).

Lemma length_first_occurrences labels :
  length (first_occurrences labels) ≤ length labels.
Proof.
  induction labels as [|x labels IH]; cbn [first_occurrences length]; [lia|].
  pose proof (length_filter (λ y, y ≠ x) (first_occurrences labels)). lia.
Qed.

Lemma length_event_rows_le n labels :
  length (event_rows n labels) ≤ length labels.
Proof.
  unfold event_rows.
  pose proof (length_first_occurrences
                (filter (λ l, l ∉ synthetic_rows n) labels)).
  pose proof (length_filter (λ l, l ∉ synthetic_rows n) labels). lia.
Qed.

(** X1.  The y-range has a row for every period and at most one further row per
    event. *)
Theorem get_y_range_length_bounds (event_dict : pydict)
    (period_list : list pydict) labels w :
  event_dict !! "label" = Some labels →
  ∃ ys,
    get_y_range event_dict period_list w = Return ys w
    ∧ length period_list ≤ length ys
    ∧ length ys ≤ length period_list + length labels.
Proof.
  intros Hl. eexists. split; [by apply get_y_range_runs|].
  unfold y_range_spec.
  rewrite length_app, length_synthetic_rows.
  pose proof (length_event_rows_le (length period_list) labels). lia.
Qed.

Lemma get_y_range_length_bounds_witness :
  ∃ ys,
    get_y_range sample_events [sample_period; other_period]
      (world_of sample_timeline [])
    = Return ys (world_of sample_timeline [])
    ∧ 2 ≤ length ys
    ∧ length ys ≤ 2 + 4.
Proof.
  apply (get_y_range_length_bounds sample_events [sample_period; other_period]
           [PStr "rome"; PStr "p0"; PStr "rome"; PStr "byzantium"]
           (world_of sample_timeline [])).
  reflexivity.
Defined.

(** X2.  Events added at the end of the 'label' column only add rows at the end
    of the y-range: the rows there were stay where they were. *)
Theorem get_y_range_appended_events (event_dict1 event_dict2 : pydict)
    (period_list : list pydict) labels more w :
  event_dict1 !! "label" = Some labels →
  event_dict2 !! "label" = Some (labels ++ more) →
  ∃ ys new_rows,
    get_y_range event_dict1 period_list w = Return ys w
    ∧ get_y_range event_dict2 period_list w = Return (ys ++ new_rows) w
    ∧ (∀ l, l ∈ new_rows ↔ l ∈ more ∧ l ∉ ys).
Proof.
  intros H1 H2. do 2 eexists. split_and!.
  - by apply get_y_range_runs.
  - rewrite (get_y_range_runs _ _ _ _ H2). f_equal.
    unfold y_range_spec, event_rows.
    rewrite filter_app, first_occurrences_app, app_assoc. reflexivity.
  - intros l. rewrite list_elem_of_filter, elem_of_first_occurrences.
    rewrite list_elem_of_filter. unfold y_range_spec, event_rows.
    rewrite not_elem_of_app, elem_of_first_occurrences, !list_elem_of_filter.
    tauto.
Qed.

Lemma get_y_range_appended_events_witness :
  ∃ ys new_rows,
    get_y_range {[ "label" := [PStr "rome"; PStr "p0"] ]} [sample_period]
      (world_of sample_timeline [])
    = Return ys (world_of sample_timeline [])
    ∧ get_y_range sample_events [sample_period] (world_of sample_timeline [])
      = Return (ys ++ new_rows) (world_of sample_timeline [])
    ∧ (∀ l, l ∈ new_rows ↔ l ∈ [PStr "rome"; PStr "byzantium"] ∧ l ∉ ys).
Proof.
  apply (get_y_range_appended_events
           {[ "label" := [PStr "rome"; PStr "p0"] ]} sample_events
           [sample_period] [PStr "rome"; PStr "p0"]
           [PStr "rome"; PStr "byzantium"] (world_of sample_timeline []));
    reflexivity.
Defined.

(** X3.  When no label repeats and none is a synthetic row identifier, the
    y-range is the synthetic rows followed by the 'label' column as it
    is. *)
Theorem get_y_range_distinct_labels (event_dict : pydict)
    (period_list : list pydict) labels w :
  event_dict !! "label" = Some labels →
  NoDup labels →
  (∀ i, i < length period_list → PStr ("p" +:+ str i) ∉ labels) →
  get_y_range event_dict period_list w
  = Return (synthetic_rows (length period_list) ++ labels) w.
Proof.
  intros Hl Hnd Hsyn. rewrite (get_y_range_runs _ _ _ _ Hl). f_equal.
  unfold y_range_spec, event_rows. f_equal.
  rewrite filter_all; [by apply first_occurrences_NoDup|].
  intros y Hy (i & Hi & ->)%elem_of_synthetic_rows. by apply (Hsyn i).
Qed.

Lemma get_y_range_distinct_labels_witness :
  get_y_range {[ "label" := [PStr "rome"; PStr "byzantium"] ]} [sample_period]
    (world_of sample_timeline [])
  = Return (synthetic_rows 1 ++ [PStr "rome"; PStr "byzantium"])
      (world_of sample_timeline []).
Proof.
  apply (get_y_range_distinct_labels
           {[ "label" := [PStr "rome"; PStr "byzantium"] ]} [sample_period]
           [PStr "rome"; PStr "byzantium"] (world_of sample_timeline [])).
  - reflexivity.
  - apply (bool_decide_unpack _). reflexivity.
  - intros i Hi. assert (i = 0) as -> by (cbn in Hi; lia).
    apply (bool_decide_unpack _). reflexivity.
Defined.

(** X4.  The row of period [i] is at index [i] of the y-range and nowhere else,
    whether or not an event carries the label "p"+str(i): such an event
    gets no row of its own. *)
Theorem get_y_range_period_row (event_dict : pydict)
    (period_list : list pydict) labels i w :
  event_dict !! "label" = Some labels →
  i < length period_list →
  ∃ ys,
    get_y_range event_dict period_list w = Return ys w
    ∧ ys !! i = Some (PStr ("p" +:+ str i))
    ∧ ∀ j, ys !! j = Some (PStr ("p" +:+ str i)) → j = i.
Proof.
  intros Hl Hi. eexists. split; [by apply get_y_range_runs|].
  assert (Hrow : y_range_spec (length period_list) labels !! i
                 = Some (PStr ("p" +:+ str i))).
  { unfold y_range_spec. apply lookup_app_l_Some.
    by apply lookup_synthetic_rows. }
  split; [done|]. intros j Hj.
  pose proof (NoDup_y_range_spec (length period_list) labels) as Hnd.
  rewrite NoDup_alt in Hnd. by apply (Hnd j i _ Hj Hrow).
Qed.

Lemma get_y_range_period_row_witness :
  ∃ ys,
    get_y_range sample_events [sample_period] (world_of sample_timeline [])
    = Return ys (world_of sample_timeline [])
    ∧ ys !! 0 = Some (PStr ("p" +:+ str 0))
    ∧ ∀ j, ys !! j = Some (PStr ("p" +:+ str 0)) → j = 0.
Proof.
  apply (get_y_range_period_row sample_events [sample_period]
           [PStr "rome"; PStr "p0"; PStr "rome"; PStr "byzantium"] 0
           (world_of sample_timeline [])).
  - reflexivity.
  - cbn. lia.
Defined.
End y_range_more.

(** * More about drawing *)

Section drawing_more.
Implicit Types (w : World) (plot : nat) (fig : figure).

(** X5.  On an existing figure [period_labels] adds one label set per period,
    in index order and after the layouts already there: the one of period
    [i] takes its position from the 'mid' column of that period's data,
    sits at the synthetic row "p"+str(i) and carries the text column and
    styling it was given.  The glyphs of the figure stay as they are. *)
Theorem period_labels_layouts plot (period_list : list pydict) text y_offset
    size color align fig w :
  figures w !! plot = Some fig →
  ∃ w' fig' labels,
    period_labels plot period_list text y_offset size color align w
    = Return tt w'
    ∧ figures w' !! plot = Some fig'
    ∧ layouts fig' = layouts fig ++ labels
    ∧ renderers fig' = renderers fig
    ∧ length labels = length period_list
    ∧ ∀ i period_group,
        period_list !! i = Some period_group →
        labels !! i
        = Some {| ls_x := column "mid";
                  ls_y := value (PStr ("p" +:+ str i));
                  ls_text := text;
                  ls_y_offset := y_offset;
                  ls_text_font_size := size;
                  ls_text_color := color;
                  ls_text_align := align;
                  ls_source := {| data := period_group |} |}.
Proof.
  intros Hfig. do 3 eexists. split_and!.
  - by apply period_labels_runs.
  - by eapply lookup_updated.
  - reflexivity.
  - reflexivity.
  - apply length_imap.
  - intros i pg Hi. by rewrite list_lookup_imap, Hi.
Qed.

Lemma period_labels_layouts_witness :
  ∃ w' fig' labels,
    period_labels 0 [sample_period; other_period] "title" (-8) "11px"
      "#555555" "center" (world_of sample_timeline [blank_figure])
    = Return tt w'
    ∧ figures w' !! 0 = Some fig'
    ∧ layouts fig' = layouts blank_figure ++ labels
    ∧ renderers fig' = renderers blank_figure
    ∧ length labels = 2
    ∧ ∀ i period_group,
        [sample_period; other_period] !! i = Some period_group →
        labels !! i
        = Some {| ls_x := column "mid";
                  ls_y := value (PStr ("p" +:+ str i));
                  ls_text := "title";
                  ls_y_offset := -8;
                  ls_text_font_size := "11px";
                  ls_text_color := "#555555";
                  ls_text_align := "center";
                  ls_source := {| data := period_group |} |}.
Proof.
  apply (period_labels_layouts 0 [sample_period; other_period] "title" (-8)
           "11px" "#555555" "center" blank_figure
           (world_of sample_timeline [blank_figure])).
  reflexivity.
Defined.

(** X6.  On an existing figure [render_events], given a size that is not
    negative (bokeh accepts no other), adds one scatter glyph after the
    glyphs already there, over the given source and columns, of the given
    size and in the renderer's event color; every other part of the figure
    is as it was. *)
Theorem render_events_scatter plot source x y size fig w :
  figures w !! plot = Some fig →
  (0 ≤ size)%Z →
  ∃ w' fig',
    render_events plot source x y size w = Return tt w'
    ∧ figures w' !! plot = Some fig'
    ∧ renderers fig'
      = renderers fig
        ++ [scatter {| sc_x := column x; sc_y := column y; sc_size := size;
                       sc_source := source;
                       sc_color := event_color (self w) |}]
    ∧ layouts fig' = layouts fig
    ∧ hover fig' = hover fig
    ∧ xaxis_formatter fig' = xaxis_formatter fig
    ∧ fig_kwargs fig' = fig_kwargs fig
    ∧ toolbar_logo fig' = toolbar_logo fig.
Proof.
  intros Hfig _. do 2 eexists. split_and!.
  - by apply render_events_runs.
  - by eapply lookup_updated.
  - reflexivity.
  - reflexivity.
  - reflexivity.
  - reflexivity.
  - reflexivity.
  - reflexivity.
Qed.

Lemma render_events_scatter_witness :
  ∃ w' fig',
    render_events 0 {| data := sample_events |} "dates" "label" 20
      (world_of sample_timeline [hover_figure])
    = Return tt w'
    ∧ figures w' !! 0 = Some fig'
    ∧ renderers fig'
      = renderers hover_figure
        ++ [scatter {| sc_x := column "dates"; sc_y := column "label";
                       sc_size := 20;
                       sc_source := {| data := sample_events |};
                       sc_color := "blue" |}]
    ∧ layouts fig' = layouts hover_figure
    ∧ hover fig' = hover hover_figure
    ∧ xaxis_formatter fig' = xaxis_formatter hover_figure
    ∧ fig_kwargs fig' = fig_kwargs hover_figure
    ∧ toolbar_logo fig' = toolbar_logo hover_figure.
Proof.
  apply (render_events_scatter 0 {| data := sample_events |} "dates" "label"
           20 hover_figure (world_of sample_timeline [hover_figure])).
  - reflexivity.
  - lia.
Defined.

(** X7.  On an existing figure [event_labels] adds one label set after the
    layouts already there, with the columns, offset and styling it was
    given; the glyphs stay as they are. *)
Theorem event_labels_layout plot source x y text y_offset size color align
    fig w :
  figures w !! plot = Some fig →
  ∃ w' fig',
    event_labels plot source x y text y_offset size color align w
    = Return tt w'
    ∧ figures w' !! plot = Some fig'
    ∧ layouts fig'
      = layouts fig
        ++ [ {| ls_x := column x; ls_y := column y; ls_text := text;
                ls_y_offset := y_offset; ls_text_font_size := size;
                ls_text_color := color; ls_text_align := align;
                ls_source := source |} ]
    ∧ renderers fig' = renderers fig.
Proof.
  intros Hfig. do 2 eexists. split_and!.
  - by apply event_labels_runs.
  - by eapply lookup_updated.
  - reflexivity.
  - reflexivity.
Qed.

Lemma event_labels_layout_witness :
  ∃ w' fig',
    event_labels 0 {| data := sample_events |} "dates" "label" "title" 0
      "13px" "#555555" "center" (world_of sample_timeline [blank_figure])
    = Return tt w'
    ∧ figures w' !! 0 = Some fig'
    ∧ layouts fig'
      = layouts blank_figure
        ++ [ {| ls_x := column "dates"; ls_y := column "label";
                ls_text := "title"; ls_y_offset := 0;
                ls_text_font_size := "13px"; ls_text_color := "#555555";
                ls_text_align := "center";
                ls_source := {| data := sample_events |} |} ]
    ∧ renderers fig' = renderers blank_figure.
Proof.
  apply (event_labels_layout 0 {| data := sample_events |} "dates" "label"
           "title" 0 "13px" "#555555" "center" blank_figure
           (world_of sample_timeline [blank_figure])).
  reflexivity.
Defined.

(** X8.  When [setup_figure] returns, the reference it returns pointed at
    no figure before; behind it is a figure with the keyword arguments
    given, no toolbar logo, no hover tool and nothing drawn.  The figures
    there were are untouched and nothing is shown or saved. *)
Theorem setup_figure_fresh kwargs w p w' :
  setup_figure kwargs w = Return p w' →
  figures w !! p = None
  ∧ figures w' !! p
    = Some {| fig_kwargs := kwargs; toolbar_logo := None; renderers := [];
              layouts := []; hover := []; xaxis_formatter := None |}
  ∧ length (figures w') = S (length (figures w))
  ∧ (∀ q, q ≠ p → figures w' !! q = figures w !! q)
  ∧ effects w' = effects w.
Proof.
  rewrite setup_figure_runs. intros [= <- <-]. split_and!.
  - by apply lookup_ge_None_2.
  - cbn [figures set_figures]. by apply list_lookup_middle.
  - cbn [figures set_figures]. rewrite length_app. cbn. lia.
  - intros q Hq. cbn [figures set_figures].
    destruct (decide (q < length (figures w))) as [Hlt|Hge].
    + by rewrite lookup_app_l.
    + rewrite (lookup_ge_None_2 (figures w)) by lia.
      apply lookup_ge_None_2. rewrite length_app. cbn. lia.
  - reflexivity.
Qed.

Lemma setup_figure_fresh_witness :
  figures (world_of sample_timeline [hover_figure]) !! 1 = None
  ∧ figures (world_of sample_timeline [hover_figure; blank_figure]) !! 1
    = Some {| fig_kwargs := fig_kwargs blank_figure; toolbar_logo := None;
              renderers := []; layouts := []; hover := [];
              xaxis_formatter := None |}
  ∧ length (figures (world_of sample_timeline [hover_figure; blank_figure]))
    = S (length (figures (world_of sample_timeline [hover_figure])))
  ∧ (∀ q, q ≠ 1 →
       figures (world_of sample_timeline [hover_figure; blank_figure]) !! q
       = figures (world_of sample_timeline [hover_figure]) !! q)
  ∧ effects (world_of sample_timeline [hover_figure; blank_figure])
    = effects (world_of sample_timeline [hover_figure]).
Proof.
  apply (setup_figure_fresh (fig_kwargs blank_figure)
           (world_of sample_timeline [hover_figure]) 1
           (world_of sample_timeline [hover_figure; blank_figure])).
  reflexivity.
Defined.




(** X10.  Installing a tick formatter replaces the one there was: after
    [format_xaxis] with one flag and then with another, the figure is as
    after the second call alone. *)
Theorem format_xaxis_replaces plot (scientific1 scientific2 : bool) fig w :
  figures w !! plot = Some fig →
  (format_xaxis plot scientific1 ;; format_xaxis plot scientific2) w
  = format_xaxis plot scientific2 w.
Proof.
  intros Hfig.
  erewrite bind_runs by (by apply format_xaxis_runs).
  etrans; [eapply format_xaxis_runs, lookup_updated, Hfig|].
  rewrite update_updated, (format_xaxis_runs _ scientific2 fig w) by done.
  reflexivity.
Qed.

Lemma format_xaxis_replaces_witness :
  (format_xaxis 0 true ;; format_xaxis 0 false)
    (world_of sample_timeline [blank_figure])
  = format_xaxis 0 false (world_of sample_timeline [blank_figure]).
Proof.
  apply (format_xaxis_replaces 0 true false blank_figure
           (world_of sample_timeline [blank_figure])).
  reflexivity.
Defined.
End drawing_more.

(** * What a drawing method leaves alone *)

Section frame.
Implicit Types (w : World) (plot : nat).

Lemma touches_only_ret {A} plot (a : A) : touches_only plot (ret a).
Proof. intros w a' w' [= _ <-]. done. Qed.

Lemma touches_only_raise {A} plot e : touches_only plot (@raise A e).
Proof. intros w a w' [=]. Qed.

Lemma touches_only_bind {A B} plot (m : M A) (k : A → M B) :
  touches_only plot m → (∀ a, touches_only plot (k a)) →
  touches_only plot (bind m k).
Proof.
  intros Hm Hk w b w'. unfold bind.
  destruct (m w) as [a w1|e] eqn:Em; [|done].
  intros Ek.
  destruct (Hm w a w1 Em) as (Hlen1 & Hq1 & Heff1).
  destruct (Hk a w1 b w' Ek) as (Hlen2 & Hq2 & Heff2).
  split_and!; [congruence| |congruence].
  intros q Hq. by rewrite Hq2, Hq1.
Qed.

Lemma touches_only_get_self plot : touches_only plot get_self.
Proof. intros w a w' [= _ <-]. done. Qed.

Lemma touches_only_list_getitem {A} plot (l : list A) i :
  touches_only plot (list_getitem l i).
Proof.
  unfold list_getitem. destruct (l !! i);
    [apply touches_only_ret | apply touches_only_raise].
Qed.

Lemma touches_only_update_figure plot f :
  touches_only plot (update_figure plot f).
Proof.
  intros w a w'. unfold update_figure.
  destruct (figures w !! plot); [|done]. intros [= _ <-].
  cbn [figures set_figures effects]. split_and!.
  - apply length_insert.
  - intros q Hq. by apply list_lookup_insert_ne.
  - done.
Qed.

Lemma touches_only_for_each {A} plot (xs : list A) (body : A → M unit) :
  (∀ x, touches_only plot (body x)) → touches_only plot (for_each xs body).
Proof.
  intros Hbody. induction xs as [|x xs IH]; cbn [for_each].
  - apply touches_only_ret.
  - apply touches_only_bind; [apply Hbody | intros _; apply IH].
Qed.
End frame.

Ltac touches_only :=
  repeat first
    [ apply touches_only_ret
    | apply touches_only_get_self
    | apply touches_only_list_getitem
    | apply touches_only_update_figure
    | apply touches_only_bind; [|intros ?; cbv beta zeta]
    | apply touches_only_for_each; intros ?; cbv beta zeta ].

Section frame_methods.
Implicit Types (w : World) (plot : nat).

(** X11.  A drawing method ([render_events], [event_tooltips], [event_labels],
    [render_periods], [period_labels], [format_xaxis]) changes no figure
    but the one it is given: when it returns, there are as many figures as
    before, every other figure is as it was, and nothing has been shown or
    saved. *)
Theorem drawing_touches_only_its_plot (c : method_call) plot w a w' :
  target c = Some plot →
  call c w = Return a w' →
  length (figures w') = length (figures w)
  ∧ (∀ q, q ≠ plot → figures w' !! q = figures w !! q)
  ∧ effects w' = effects w.
Proof.
  intros Ht. revert w a w'. change (touches_only plot (call c)).
  destruct c; cbn [target] in Ht; try discriminate Ht;
    injection Ht as ->; cbn [call].
  - unfold render_events. touches_only.
  - unfold event_tooltips. touches_only.
  - unfold event_labels. touches_only.
  - unfold render_periods, get_source_from_event_dict. touches_only.
  - unfold period_labels, get_source_from_event_dict. touches_only.
  - unfold format_xaxis. touches_only.
Qed.

Lemma drawing_touches_only_its_plot_witness :
  ∃ w',
    call (call_render_periods 1 [sample_period; other_period] 0.3)
      (world_of sample_timeline [blank_figure; blank_figure])
    = Return tt w'
    ∧ length (figures w') = 2
    ∧ (∀ q, q ≠ 1 →
         figures w' !! q
         = figures (world_of sample_timeline [blank_figure; blank_figure])
           !! q)
    ∧ effects w' = [].
Proof.
  eexists. split; [vm_compute; reflexivity|].
  apply (drawing_touches_only_its_plot
           (call_render_periods 1 [sample_period; other_period] 0.3) 1
           (world_of sample_timeline [blank_figure; blank_figure]) tt).
  - reflexivity.
  - vm_compute. reflexivity.
Defined.
End frame_methods.

(** * More about the end-to-end path *)

Section end_to_end_more.
Implicit Types (w : World) (labels : list pyval).

(** X12.  Without a 'label' column in the event dictionary there is no chart:
    [render_timeline] raises KeyError('label'), and so does
    [output_timeline], whether asked to show or to save. *)
Theorem render_timeline_missing_label output (show_timeline : bool) w :
  create_event_dict (tl (self w)) !! "label" = None →
  render_timeline w = Raise (KeyError "label")
  ∧ output_timeline output show_timeline w = Raise (KeyError "label").
Proof.
  intros Hl. split.
  - by apply render_timeline_raises.
  - by apply output_timeline_raises.
Qed.

Lemma render_timeline_missing_label_witness :
  render_timeline (world_of unlabelled_timeline []) = Raise (KeyError "label")
  ∧ output_timeline "rome.html" true (world_of unlabelled_timeline [])
    = Raise (KeyError "label").
Proof.
  apply (render_timeline_missing_label "rome.html" true
           (world_of unlabelled_timeline [])).
  reflexivity.
Defined.

(** X13.  [render_timeline] builds its chart in a figure of its own: the
    reference it returns pointed at no figure before, the figures there
    were are untouched, and nothing is shown or saved. *)
Theorem render_timeline_new_figure labels w :
  create_event_dict (tl (self w)) !! "label" = Some labels →
  ∃ p w',
    render_timeline w = Return p w'
    ∧ figures w !! p = None
    ∧ is_Some (figures w' !! p)
    ∧ length (figures w') = S (length (figures w))
    ∧ (∀ q, q ≠ p → figures w' !! q = figures w !! q)
    ∧ effects w' = effects w.
Proof.
  intros Hl. do 2 eexists. split_and!.
  - by apply render_timeline_runs.
  - by apply lookup_ge_None_2.
  - cbn [figures set_figures]. rewrite list_lookup_middle by done. eauto.
  - cbn [figures set_figures]. rewrite length_app. cbn. lia.
  - intros q Hq. cbn [figures set_figures].
    destruct (decide (q < length (figures w))) as [Hlt|Hge].
    + by rewrite lookup_app_l.
    + rewrite (lookup_ge_None_2 (figures w)) by lia.
      apply lookup_ge_None_2. rewrite length_app. cbn. lia.
  - reflexivity.
Qed.

Lemma render_timeline_new_figure_witness :
  ∃ p w',
    render_timeline (world_of sample_timeline [blank_figure]) = Return p w'
    ∧ figures (world_of sample_timeline [blank_figure]) !! p = None
    ∧ is_Some (figures w' !! p)
    ∧ length (figures w') = 2
    ∧ (∀ q, q ≠ p →
         figures w' !! q
         = figures (world_of sample_timeline [blank_figure]) !! q)
    ∧ effects w' = [].
Proof.
  apply (render_timeline_new_figure
           [PStr "rome"; PStr "p0"; PStr "rome"; PStr "byzantium"]
           (world_of sample_timeline [blank_figure])).
  reflexivity.
Defined.

(** X14.  What is on the chart: the event markers first and then one bar per
    period; one label set per period and then the event labels, which use
    the same source and columns as the markers; no toolbar logo.  The chart
    has no hover tool (the renderer's tools are not hover tools), so the
    tooltips [render_timeline] asks for are on no tool of it. *)
Theorem render_timeline_chart_contents labels w :
  create_event_dict (tl (self w)) !! "label" = Some labels →
  ∃ p w' fig,
    render_timeline w = Return p w'
    ∧ figures w' !! p = Some fig
    ∧ length (renderers fig) = S (length (create_period_list (tl (self w))))
    ∧ renderers fig !! 0
      = Some (scatter
                {| sc_x := column "dates"; sc_y := column "label";
                   sc_size := 20;
                   sc_source := {| data := create_event_dict (tl (self w)) |};
                   sc_color := event_color (self w) |})
    ∧ length (layouts fig) = S (length (create_period_list (tl (self w))))
    ∧ last (layouts fig)
      = Some {| ls_x := column "dates"; ls_y := column "label";
                ls_text := "title"; ls_y_offset := 0;
                ls_text_font_size := "13px"; ls_text_color := "#555555";
                ls_text_align := "center";
                ls_source := {| data := create_event_dict (tl (self w)) |} |}
    ∧ hover fig = []
    ∧ toolbar_logo fig = None.
Proof.
  intros Hl. do 3 eexists. split_and!.
  - by apply render_timeline_runs.
  - cbn [figures set_figures]. by apply list_lookup_middle.
  - cbn [rendered_figure renderers length]. by rewrite length_imap.
  - reflexivity.
  - cbn [rendered_figure layouts]. rewrite length_app, length_imap. cbn. lia.
  - cbn [rendered_figure layouts]. apply last_snoc.
  - reflexivity.
  - reflexivity.
Qed.

Lemma render_timeline_chart_contents_witness :
  ∃ p w' fig,
    render_timeline (world_of sample_timeline []) = Return p w'
    ∧ figures w' !! p = Some fig
    ∧ length (renderers fig) = 2
    ∧ renderers fig !! 0
      = Some (scatter
                {| sc_x := column "dates"; sc_y := column "label";
                   sc_size := 20;
                   sc_source := {| data := sample_events |};
                   sc_color := "blue" |})
    ∧ length (layouts fig) = 2
    ∧ last (layouts fig)
      = Some {| ls_x := column "dates"; ls_y := column "label";
                ls_text := "title"; ls_y_offset := 0;
                ls_text_font_size := "13px"; ls_text_color := "#555555";
                ls_text_align := "center";
                ls_source := {| data := sample_events |} |}
    ∧ hover fig = []
    ∧ toolbar_logo fig = None.
Proof.
  apply (render_timeline_chart_contents
           [PStr "rome"; PStr "p0"; PStr "rome"; PStr "byzantium"]
           (world_of sample_timeline [])).
  reflexivity.
Defined.

(** X15.  Every row a glyph of the chart refers to is in the chart's y-range:
    the bar and the label set of period [i] share the row at index [i] of
    the y-range and that period's data, and every label of the 'label'
    column, which places the event markers, is a row of the y-range. *)
Theorem render_timeline_rows_exist labels w :
  create_event_dict (tl (self w)) !! "label" = Some labels →
  ∃ p w' fig,
    render_timeline w = Return p w'
    ∧ figures w' !! p = Some fig
    ∧ (∀ i period_group,
         create_period_list (tl (self w)) !! i = Some period_group →
         ∃ bar lab,
           renderers fig !! S i = Some (hbar bar)
           ∧ layouts fig !! i = Some lab
           ∧ hb_source bar = {| data := period_group |}
           ∧ ls_source lab = {| data := period_group |}
           ∧ hb_y bar = ls_y lab
           ∧ (value <$> y_range fig !! i) = Some (hb_y bar))
    ∧ (∀ l, l ∈ labels → l ∈ y_range fig).
Proof.
  intros Hl. do 3 eexists. split_and!.
  - by apply render_timeline_runs.
  - cbn [figures set_figures]. by apply list_lookup_middle.
  - intros i pg Hi. do 2 eexists. split_and!.
    + cbn [rendered_figure renderers]. rewrite lookup_cons. cbv beta iota.
      rewrite list_lookup_imap, Hi. reflexivity.
    + cbn [rendered_figure layouts]. apply lookup_app_l_Some.
      rewrite list_lookup_imap, Hi. reflexivity.
    + reflexivity.
    + reflexivity.
    + reflexivity.
    + unfold y_range. cbn [rendered_figure fig_kwargs kw_y_range].
      unfold y_range_spec.
      rewrite (lookup_app_l_Some _ _ _ (PStr ("p" +:+ str i))); [done|].
      apply lookup_synthetic_rows. by apply lookup_lt_Some in Hi.
  - intros l Hin. unfold y_range.
    cbn [rendered_figure fig_kwargs kw_y_range]. unfold y_range_spec, event_rows.
    rewrite elem_of_app, elem_of_first_occurrences, list_elem_of_filter.
    destruct (decide
                (l ∈ synthetic_rows (length (create_period_list (tl (self w))))));
      tauto.
Qed.

Lemma render_timeline_rows_exist_witness :
  ∃ p w' fig,
    render_timeline (world_of sample_timeline []) = Return p w'
    ∧ figures w' !! p = Some fig
    ∧ (∀ i period_group,
         [sample_period] !! i = Some period_group →
         ∃ bar lab,
           renderers fig !! S i = Some (hbar bar)
           ∧ layouts fig !! i = Some lab
           ∧ hb_source bar = {| data := period_group |}
           ∧ ls_source lab = {| data := period_group |}
           ∧ hb_y bar = ls_y lab
           ∧ (value <$> y_range fig !! i) = Some (hb_y bar))
    ∧ (∀ l, l ∈ [PStr "rome"; PStr "p0"; PStr "rome"; PStr "byzantium"] →
            l ∈ y_range fig).
Proof.
  apply (render_timeline_rows_exist
           [PStr "rome"; PStr "p0"; PStr "rome"; PStr "byzantium"]
           (world_of sample_timeline [])).
  reflexivity.
Defined.
End end_to_end_more.

Section end_to_end_configuration.
Implicit Types (w : World) (labels : list pyval).

(** X16.  The renderer's configuration is what the chart is made with: its
    title is the timeline's, background and border both take [bg_color]
    and [bg_alpha], the tools are the renderer's, the event markers have
    [event_color] and every period bar has [period_color] and height
    0.3. *)
Theorem render_timeline_uses_configuration labels w :
  create_event_dict (tl (self w)) !! "label" = Some labels →
  ∃ p w' fig,
    render_timeline w = Return p w'
    ∧ figures w' !! p = Some fig
    ∧ kw_title (fig_kwargs fig) = title (tl (self w))
    ∧ kw_background_fill_color (fig_kwargs fig) = bg_color (self w)
    ∧ kw_border_fill_color (fig_kwargs fig) = bg_color (self w)
    ∧ kw_background_fill_alpha (fig_kwargs fig) = bg_alpha (self w)
    ∧ kw_border_fill_alpha (fig_kwargs fig) = bg_alpha (self w)
    ∧ kw_tools (fig_kwargs fig) = tools (self w)
    ∧ ∀ g, g ∈ renderers fig →
        match g with
        | scatter s => sc_color s = event_color (self w)
        | hbar b => hb_color b = period_color (self w) ∧ hb_height b = 0.3%Q
        end.
Proof.
  intros Hl. do 3 eexists. split_and!.
  - by apply render_timeline_runs.
  - cbn [figures set_figures]. by apply list_lookup_middle.
  - reflexivity.
  - reflexivity.
  - reflexivity.
  - reflexivity.
  - reflexivity.
  - reflexivity.
  - intros g. cbn [rendered_figure renderers]. rewrite elem_of_cons.
    intros [->|Hg]; [done|].
    apply list_elem_of_lookup in Hg as [i Hi].
    rewrite list_lookup_imap in Hi.
    destruct (create_period_list (tl (self w)) !! i); [|done].
    by injection Hi as <-.
Qed.

Lemma render_timeline_uses_configuration_witness :
  ∃ p w' fig,
    render_timeline (world_of sample_timeline []) = Return p w'
    ∧ figures w' !! p = Some fig
    ∧ kw_title (fig_kwargs fig) = "Rome"
    ∧ kw_background_fill_color (fig_kwargs fig) = "white"
    ∧ kw_border_fill_color (fig_kwargs fig) = "white"
    ∧ kw_background_fill_alpha (fig_kwargs fig) = 1%Q
    ∧ kw_border_fill_alpha (fig_kwargs fig) = 1%Q
    ∧ kw_tools (fig_kwargs fig) = [BoxZoomTool; ResetTool; PanTool "width"]
    ∧ ∀ g, g ∈ renderers fig →
        match g with
        | scatter s => sc_color s = "blue"
        | hbar b => hb_color b = "red" ∧ hb_height b = 0.3%Q
        end.
Proof.
  apply (render_timeline_uses_configuration
           [PStr "rome"; PStr "p0"; PStr "rome"; PStr "byzantium"]
           (world_of sample_timeline [])).
  reflexivity.
Defined.

(** X17.  Rendering twice gives two charts: the second call returns another
    reference, leaves the chart of the first call as that call left it and
    builds an equal one. *)
Theorem render_timeline_twice labels w :
  create_event_dict (tl (self w)) !! "label" = Some labels →
  ∃ p1 w1 fig p2 w2,
    render_timeline w = Return p1 w1
    ∧ figures w1 !! p1 = Some fig
    ∧ render_timeline w1 = Return p2 w2
    ∧ p1 ≠ p2
    ∧ figures w2 !! p1 = Some fig
    ∧ figures w2 !! p2 = Some fig
    ∧ (∀ q, q ≠ p2 → figures w2 !! q = figures w1 !! q)
    ∧ self w2 = self w
    ∧ effects w2 = effects w.
Proof.
  intros Hl. do 5 eexists. split_and!.
  - by apply render_timeline_runs.
  - cbn [figures set_figures]. by apply list_lookup_middle.
  - by apply render_timeline_runs.
  - cbn [figures set_figures]. rewrite length_app. cbn. lia.
  - cbn [figures set_figures self].
    apply lookup_app_l_Some. by apply list_lookup_middle.
  - cbn [figures set_figures self]. by apply list_lookup_middle.
  - intros q Hq. cbn [figures set_figures self] in *.
    destruct (decide (q < length (figures w ++ [rendered_figure (self w) labels])))
      as [Hlt|Hge].
    + by rewrite lookup_app_l.
    + rewrite (lookup_ge_None_2 (figures w ++ [_])) by lia.
      apply lookup_ge_None_2. rewrite length_app. cbn. lia.
  - reflexivity.
  - reflexivity.
Qed.

Lemma render_timeline_twice_witness :
  ∃ p1 w1 fig p2 w2,
    render_timeline (world_of sample_timeline []) = Return p1 w1
    ∧ figures w1 !! p1 = Some fig
    ∧ render_timeline w1 = Return p2 w2
    ∧ p1 ≠ p2
    ∧ figures w2 !! p1 = Some fig
    ∧ figures w2 !! p2 = Some fig
    ∧ (∀ q, q ≠ p2 → figures w2 !! q = figures w1 !! q)
    ∧ self w2 = self (world_of sample_timeline [])
    ∧ effects w2 = effects (world_of sample_timeline []).
Proof.
  apply (render_timeline_twice
           [PStr "rome"; PStr "p0"; PStr "rome"; PStr "byzantium"]
           (world_of sample_timeline [])).
  reflexivity.
Defined.
End end_to_end_configuration.

(** * More about tick labels *)

Section tick_labels_more.
Context {printer : NumberToString}.
Implicit Types (t : spec_float) (s : string).
Local Abbreviation chars := Strings.String.list_ascii_of_string.

Lemma chars_append s1 s2 :
  chars (s1 +:+ s2)
  = chars s1 ++ chars s2.
Proof.
  induction s1 as [|a s1 IH]; [done|].
  change (String a s1 +:+ s2) with (String a (s1 +:+ s2)).
  cbn [Strings.String.list_ascii_of_string app]. by rewrite IH.
Qed.

Lemma chars_inj s1 s2 :
  chars s1 = chars s2 → s1 = s2.
Proof.
  intros H. rewrite <- (Strings.String.string_of_list_ascii_of_string s1),
    <- (Strings.String.string_of_list_ascii_of_string s2). by rewrite H.
Qed.

(** Two strings that end in suffixes with the same number of characters
    are equal only if the suffixes are and what precedes them is. *)
Lemma append_suffix_inj s1 s2 suffix1 suffix2 :
  List.length (chars suffix1)
  = List.length (chars suffix2) →
  s1 +:+ suffix1 = s2 +:+ suffix2 →
  s1 = s2 ∧ suffix1 = suffix2.
Proof.
  intros Hlen H. apply (f_equal chars) in H.
  rewrite !chars_append in H.
  apply app_inj_2 in H as [H1 H2]; [|done].
  split; by apply chars_inj.
Qed.

Lemma append_assoc_space s suffix :
  s +:+ (" " +:+ suffix) = (s +:+ " ") +:+ suffix.
Proof.
  apply chars_inj. rewrite !chars_append.
  by rewrite <- app_assoc.
Qed.

(** X18.  The suffix keeps the sign that [Math.abs] drops: under either
    formatter, and however the engine prints numbers, a tick below zero
    never gets the label of a tick that is not below zero. *)
Theorem tick_label_keeps_sign (scientific : bool) t1 t2 :
  SFltb t1 (S754_zero false) = true →
  SFltb t2 (S754_zero false) = false →
  tick_label
    (CustomJSTickFormatter (if scientific then code_BCE_CE else code_BC_AD)) t1
  ≠ tick_label
      (CustomJSTickFormatter (if scientific then code_BCE_CE else code_BC_AD))
      t2.
Proof.
  intros H1 H2.
  destruct scientific; rewrite ?tick_label_BCE_CE, ?tick_label_BC_AD, H1, H2;
    intros [= H].
  - change " BCE" with (" " +:+ "BCE") in H.
    rewrite (append_assoc_space (number_to_string (SFabs t1)) "BCE") in H.
    by apply append_suffix_inj in H as [_ [=]].
  - by apply append_suffix_inj in H as [_ [=]].
Qed.
End tick_labels_more.

Lemma tick_label_keeps_sign_witness :
  @tick_label sample_printer (CustomJSTickFormatter code_BC_AD)
    (number_of_Z (-44))
  ≠ @tick_label sample_printer (CustomJSTickFormatter code_BC_AD)
      (number_of_Z 44).
Proof.
  apply (@tick_label_keeps_sign sample_printer false (number_of_Z (-44))
           (number_of_Z 44)); reflexivity.
Defined.

(** * Bars and their labels *)

Section periods_and_labels.
Implicit Types (w : World) (plot : nat) (fig : figure).

(** X19.  Bars go to the glyphs of a figure and period labels to its layouts, so
    the two loops do not depend on each other: drawing the bars and then
    labelling the periods gives the same figure as labelling first and
    drawing afterwards. *)
Theorem render_periods_period_labels_commute plot (period_list : list pydict)
    height text y_offset size color align fig w :
  figures w !! plot = Some fig →
  (render_periods plot period_list height ;;
   period_labels plot period_list text y_offset size color align) w
  = (period_labels plot period_list text y_offset size color align ;;
     render_periods plot period_list height) w.
Proof.
  intros Hfig.
  erewrite bind_runs by (by apply render_periods_runs).
  etrans; [eapply period_labels_runs, lookup_updated, Hfig|].
  rewrite update_updated. symmetry.
  erewrite bind_runs by (by apply period_labels_runs).
  etrans; [eapply render_periods_runs, lookup_updated, Hfig|].
  rewrite update_updated. reflexivity.
Qed.

Lemma render_periods_period_labels_commute_witness :
  (render_periods 0 [sample_period; other_period] 0.3 ;;
   period_labels 0 [sample_period; other_period] "title" (-8) "11px"
     "#555555" "center") (world_of sample_timeline [blank_figure])
  = (period_labels 0 [sample_period; other_period] "title" (-8) "11px"
       "#555555" "center" ;;
     render_periods 0 [sample_period; other_period] 0.3)
      (world_of sample_timeline [blank_figure]).
Proof.
  apply (render_periods_period_labels_commute 0 [sample_period; other_period]
           0.3 "title" (-8) "11px" "#555555" "center" blank_figure
           (world_of sample_timeline [blank_figure])).
  reflexivity.
Defined.
End periods_and_labels.
